(** * TG-TradingGame: the portfolio ledger, the limit-order pass, the
      indicator engine and the tick driver of [main.py]

    The Python classes [Portfolio], [Stock] and the method
    [TradingWindow.update_prices] are embedded as pure functions with
    explicit state passing.

    Modelling conventions.
    - A Python [float] is an exact rational ([Q]); an [int] is a [Z].
      Rounding is not modelled.  The only place where IEEE special values
      matter, the division in the RSI computation, uses the type [fval]
      below, which adds the infinities and NaN to the rationals.
    - [datetime.now()] is an input of every operation that reads the clock;
      [random.random()] is an input of [update_price].
    - A [dict] record with a fixed set of keys (an order, a transaction) is
      a [Record]; its string-valued keys stay strings, because the code
      compares them with [==] against literals.
    - [holdings] is a finite map from symbols to share counts. *)

From Stdlib Require Import ZArith QArith Qminmax String Ascii List Bool Lia Lqa.
From stdpp Require Import base option list gmap strings fin_maps.

Import ListNotations.
Local Open Scope string_scope.
Local Open Scope Z_scope.
Local Open Scope list_scope.

(** ** Numbers *)

(** [x > y] on floats, as a boolean. *)
Definition Qgt_bool (x y : Q) : bool := negb (Qle_bool x y).

(** ** Timestamps

    A naive [datetime] object: the fields of the Gregorian calendar date
    and of the time of day. *)

Record DateTime : Type := mkDateTime {
  dt_year : Z;
  dt_month : Z;
  dt_day : Z;
  dt_hour : Z;
  dt_minute : Z;
  dt_second : Z;
  dt_microsecond : Z
}.

(** ** Records of the ledger *)

(** The dict appended by [buy_stock] and [sell_stock]. *)
Record Transaction : Type := mkTransaction {
  t_type : string;
  t_symbol : string;
  t_shares : Z;
  t_price : Q;
  t_total : Q;
  t_time : DateTime;
  t_order_type : string
}.

(** The dict built by [place_order]. *)
Record Order : Type := mkOrder {
  o_type : string;
  o_symbol : string;
  o_shares : Z;
  o_price : Q;
  o_kind : string;
  o_time : DateTime;
  o_filled : Z;
  o_status : string
}.

Definition set_status (s : string) (o : Order) : Order :=
  {| o_type := o_type o; o_symbol := o_symbol o; o_shares := o_shares o;
     o_price := o_price o; o_kind := o_kind o; o_time := o_time o;
     o_filled := o_filled o; o_status := s |}.

(** [class Portfolio]. *)
Record Portfolio : Type := mkPortfolio {
  cash : Q;
  holdings : gmap string Z;
  transaction_history : list Transaction;
  pending_orders : list Order
}.

(** [Portfolio.__init__]. *)
Definition Portfolio_init (initial_cash : Q) : Portfolio :=
  {| cash := initial_cash; holdings := ∅;
     transaction_history := []; pending_orders := [] |}.

Definition default_cash : Q := 100000.

(** ** Operations of [Portfolio] *)

(** [place_order]: builds the order dict, appends it to [pending_orders]
    and returns it.  Nothing is checked and nothing is executed. *)
Definition new_order (now : DateTime) (order_type symbol : string)
    (shares : Z) (price : Q) (order_kind : string) : Order :=
  {| o_type := order_type; o_symbol := symbol; o_shares := shares;
     o_price := price; o_kind := order_kind; o_time := now;
     o_filled := 0; o_status := "pending" |}.

Definition place_order (now : DateTime) (order_type symbol : string)
    (shares : Z) (price : Q) (order_kind : string) (p : Portfolio)
  : Portfolio * Order :=
  let order := new_order now order_type symbol shares price order_kind in
  ({| cash := cash p; holdings := holdings p;
      transaction_history := transaction_history p;
      pending_orders := pending_orders p ++ [order] |}, order).

(** The two messages returned with [False]. *)
Definition msg_no_money : string := "Nicht genug Geld für diesen Kauf".
Definition msg_no_shares : string := "Nicht genug Anteile zum Verkauf".
Definition msg_bought : string := "Kauf erfolgreich".
Definition msg_sold : string := "Verkauf erfolgreich".

(** [buy_stock]. *)
Definition buy_stock (now : DateTime) (symbol : string) (shares : Z)
    (price : Q) (p : Portfolio) : Portfolio * (bool * string) :=
  let total_cost := (inject_Z shares * price)%Q in
  if Qgt_bool total_cost (cash p) then (p, (false, msg_no_money))
  else
    ({| cash := (cash p - total_cost)%Q;
        holdings :=
          match holdings p !! symbol with
          | Some held => <[symbol := held + shares]> (holdings p)
          | None => <[symbol := shares]> (holdings p)
          end;
        transaction_history :=
          transaction_history p ++
            [ {| t_type := "buy"; t_symbol := symbol; t_shares := shares;
                 t_price := price; t_total := total_cost; t_time := now;
                 t_order_type := "market" |} ];
        pending_orders := pending_orders p |},
     (true, msg_bought)).

(** [sell_stock]. *)
Definition sell_stock (now : DateTime) (symbol : string) (shares : Z)
    (price : Q) (p : Portfolio) : Portfolio * (bool * string) :=
  match holdings p !! symbol with
  | None => (p, (false, msg_no_shares))
  | Some held =>
      if held <? shares then (p, (false, msg_no_shares))
      else
        let total_value := (inject_Z shares * price)%Q in
        let left := held - shares in
        ({| cash := (cash p + total_value)%Q;
            holdings :=
              if left =? 0 then delete symbol (holdings p)
              else <[symbol := left]> (holdings p);
            transaction_history :=
              transaction_history p ++
                [ {| t_type := "sell"; t_symbol := symbol;
                     t_shares := shares; t_price := price;
                     t_total := total_value; t_time := now;
                     t_order_type := "market" |} ];
            pending_orders := pending_orders p |},
         (true, msg_sold))
  end.

(** [execute_market_order]: every order whose type is not the string
    ["buy"] goes to [sell_stock]. *)
Definition execute_market_order (now : DateTime) (order : Order)
    (p : Portfolio) : Portfolio * (bool * string) :=
  let symbol := o_symbol order in
  let shares := o_shares order in
  let price := o_price order in
  if String.eqb (o_type order) "buy" then buy_stock now symbol shares price p
  else sell_stock now symbol shares price p.

(** [check_limit_orders].

    The loop runs over the copy [self.pending_orders[:]].  The copy holds
    the same dict objects as the live list, so [order['status'] = 'filled']
    is seen through [self.pending_orders]: the object visited at position
    [i] of the copy is the object at position [i] of the live list (nothing
    inserts into or removes from the list during the pass, and every entry
    is a dict of its own: [place_order] and [load_from_file] build a new
    one per entry).  The write is therefore an update at index [i].

    [stock_prices[order['symbol']]] raises [KeyError] when the symbol is
    missing; the pass stops there and keeps what earlier iterations did. *)

Inductive Raised : Type :=
| NoError
| KeyError (key : string)
| IndexError.

Definition mark_filled (i : nat) (p : Portfolio) : Portfolio :=
  {| cash := cash p; holdings := holdings p;
     transaction_history := transaction_history p;
     pending_orders := alter (set_status "filled") i (pending_orders p) |}.

(** The body of the [for] loop, for the order [o] found at position [i]. *)
Definition limit_step (stock_prices : gmap string Q) (now : DateTime)
    (i : nat) (o : Order) (p : Portfolio) : Portfolio * Raised :=
  if String.eqb (o_kind o) "limit" && String.eqb (o_status o) "pending" then
    match stock_prices !! o_symbol o with
    | None => (p, KeyError (o_symbol o))
    | Some current_price =>
        if String.eqb (o_type o) "buy"
           && Qle_bool current_price (o_price o) then
          (mark_filled i (fst (execute_market_order now o p)), NoError)
        else if String.eqb (o_type o) "sell"
                && Qle_bool (o_price o) current_price then
          (mark_filled i (fst (execute_market_order now o p)), NoError)
        else (p, NoError)
    end
  else (p, NoError).

(** The loop over the copy, from position [i] on.  [clock i] is the
    reading of [datetime.now()] in iteration [i]. *)
Fixpoint check_loop (stock_prices : gmap string Q) (clock : nat -> DateTime)
    (i : nat) (snapshot : list Order) (p : Portfolio) : Portfolio * Raised :=
  match snapshot with
  | [] => (p, NoError)
  | o :: rest =>
      match limit_step stock_prices (clock i) i o p with
      | (p', NoError) => check_loop stock_prices clock (S i) rest p'
      | (p', e) => (p', e)
      end
  end.

Definition check_limit_orders (stock_prices : gmap string Q)
    (clock : nat -> DateTime) (p : Portfolio) : Portfolio * Raised :=
  check_loop stock_prices clock 0 (pending_orders p) p.

(** The trigger condition of the loop body. *)
Definition triggers (o : Order) (current_price : Q) : bool :=
  (String.eqb (o_type o) "buy" && Qle_bool current_price (o_price o))
  || (String.eqb (o_type o) "sell" && Qle_bool (o_price o) current_price).

(** [TradingWindow.cancel_order]: the selected row is removed from the list
    when its status is ["pending"]; [currentRow()] is [-1] without a
    selection. *)
Definition cancel_order (selected_row : Z) (p : Portfolio) : Portfolio :=
  if (0 <=? selected_row) && (selected_row <? Z.of_nat (length (pending_orders p)))
  then
    match pending_orders p !! Z.to_nat selected_row with
    | Some order =>
        if String.eqb (o_status order) "pending" then
          {| cash := cash p; holdings := holdings p;
             transaction_history := transaction_history p;
             pending_orders := delete (Z.to_nat selected_row) (pending_orders p) |}
        else p
    | None => p
    end
  else p.

(** ** Floats with the IEEE special values

    pandas computes the indicators on float64 series.  Division by zero
    there does not raise: it gives an infinity, or NaN for [0/0], and NaN
    also marks the entries that are not populated.  [fval] adds these
    values to the rationals.  Signed zeros are not modelled: a zero divisor
    counts as [+0.0]. *)

Inductive fval : Type :=
| Fin (q : Q)
| PInf
| NInf
| NaN.

Definition Qlt_bool (x y : Q) : bool := Qgt_bool y x.

Definition fneg (x : fval) : fval :=
  match x with
  | Fin a => Fin (- a)
  | PInf => NInf
  | NInf => PInf
  | NaN => NaN
  end.

Definition fadd (x y : fval) : fval :=
  match x, y with
  | NaN, _ | _, NaN => NaN
  | Fin a, Fin b => Fin (a + b)
  | PInf, NInf | NInf, PInf => NaN
  | PInf, _ | _, PInf => PInf
  | NInf, _ | _, NInf => NInf
  end.

Definition fsub (x y : fval) : fval := fadd x (fneg y).

Definition fdiv (x y : fval) : fval :=
  match x, y with
  | NaN, _ | _, NaN => NaN
  | Fin a, Fin b =>
      if Qeq_bool b 0 then
        if Qeq_bool a 0 then NaN
        else if Qgt_bool a 0 then PInf else NInf
      else Fin (a / b)
  | Fin _, (PInf | NInf) => Fin 0
  | PInf, Fin b => if Qlt_bool b 0 then NInf else PInf
  | NInf, Fin b => if Qlt_bool b 0 then PInf else NInf
  | (PInf | NInf), (PInf | NInf) => NaN
  end.

(** [x > 0] and [x < 0]; both are false on NaN. *)
Definition fgt0 (x : fval) : bool :=
  match x with
  | Fin a => Qgt_bool a 0
  | PInf => true
  | NInf | NaN => false
  end.

Definition flt0 (x : fval) : bool :=
  match x with
  | Fin a => Qlt_bool a 0
  | NInf => true
  | PInf | NaN => false
  end.

(** ** The pandas operations used by [update_indicators] *)

Definition Series (closes : list Q) : list fval := map Fin closes.

Definition fsum (l : list fval) : fval := foldr fadd (Fin 0) l.

(** [s.rolling(window=w).mean()] at the position whose prefix (itself
    included) is [pre]: NaN until [w] observations are there, then the mean
    of the last [w]. *)
Definition window_mean (w : nat) (pre : list fval) : fval :=
  if (length pre <? w)%nat then NaN
  else fdiv (fsum (drop (length pre - w) pre)) (Fin (inject_Z (Z.of_nat w))).

Definition rolling_mean (w : nat) (s : list fval) : list fval :=
  map (fun i => window_mean w (take (S i) s)) (seq 0 (length s)).

(** [s.diff()]: NaN first, then the differences of neighbours. *)
Fixpoint diff_from (prev : fval) (s : list fval) : list fval :=
  match s with
  | [] => []
  | x :: rest => fsub x prev :: diff_from x rest
  end.

Definition diff (s : list fval) : list fval :=
  match s with
  | [] => []
  | x :: rest => NaN :: diff_from x rest
  end.

(** [s.where(cond, 0)]. *)
Definition where_ (cond : fval -> bool) (s : list fval) : list fval :=
  map (fun x => if cond x then x else Fin 0) s.

(** The local variables [gain], [loss], [rs] and [rsi]. *)
Definition gain_series (prices : list fval) : list fval :=
  rolling_mean 14 (where_ fgt0 (diff prices)).

Definition loss_series (prices : list fval) : list fval :=
  rolling_mean 14 (map fneg (where_ flt0 (diff prices))).

Definition rs_series (prices : list fval) : list fval :=
  zip_with fdiv (gain_series prices) (loss_series prices).

Definition rsi_of_rs (rs : fval) : fval :=
  fsub (Fin 100) (fdiv (Fin 100) (fadd (Fin 1) rs)).

Definition rsi_series (prices : list fval) : list fval :=
  map rsi_of_rs (rs_series prices).

(** ** Calendar arithmetic of [datetime] *)

Definition is_leap (year : Z) : bool :=
  (year mod 4 =? 0) && (negb (year mod 100 =? 0) || (year mod 400 =? 0)).

Definition days_before_year (year : Z) : Z :=
  let y := year - 1 in y * 365 + y / 4 - y / 100 + y / 400.

Definition days_in_month (year month : Z) : Z :=
  if month =? 2 then (if is_leap year then 29 else 28)
  else if (month =? 4) || (month =? 6) || (month =? 9) || (month =? 11)
       then 30 else 31.

Definition days_before_month_table : list Z :=
  [0; 31; 59; 90; 120; 151; 181; 212; 243; 273; 304; 334].

Definition days_before_month (year month : Z) : Z :=
  nth (Z.to_nat (month - 1)) days_before_month_table 0
  + (if (2 <? month) && is_leap year then 1 else 0).

(** [d.date().toordinal()]. *)
Definition toordinal (d : DateTime) : Z :=
  days_before_year (dt_year d) + days_before_month (dt_year d) (dt_month d)
  + dt_day d.

(** [(a - b).seconds]: the seconds field of the normalised [timedelta],
    which lies in [0, 86400) and leaves the days out. *)
Definition microseconds_of (d : DateTime) : Z :=
  ((toordinal d * 86400
    + dt_hour d * 3600 + dt_minute d * 60 + dt_second d) * 1000000)
  + dt_microsecond d.

Definition timedelta_seconds (a b : DateTime) : Z :=
  ((microseconds_of a - microseconds_of b) mod (86400 * 1000000)) / 1000000.

(** ** [class Stock] *)

(** One row [[ordinal, open, high, low, close, volume]] of [ohlc_data]. *)
Record Bar : Type := mkBar {
  b_day : Z;
  b_open : Q;
  b_high : Q;
  b_low : Q;
  b_close : Q;
  b_volume : Q
}.

Record Stock : Type := mkStock {
  symbol : string;
  name : string;
  price_history : list Q;
  volatility : Q;
  last_update : DateTime;
  volume_history : list Q;
  ohlc_data : list Bar;
  ind_MA20 : list fval;
  ind_MA50 : list fval;
  ind_RSI : list fval
}.

(** [update_indicators]: each series is replaced only when the history is
    long enough for it; otherwise the old one stays. *)
Definition update_indicators (s : Stock) : Stock :=
  let closes := map b_close (ohlc_data s) in
  match closes with
  | [] => s
  | _ =>
      let prices := Series closes in
      {| symbol := symbol s; name := name s;
         price_history := price_history s; volatility := volatility s;
         last_update := last_update s; volume_history := volume_history s;
         ohlc_data := ohlc_data s;
         ind_MA20 := if (20 <=? length prices)%nat
                     then rolling_mean 20 prices else ind_MA20 s;
         ind_MA50 := if (50 <=? length prices)%nat
                     then rolling_mean 50 prices else ind_MA50 s;
         ind_RSI := if (14 <=? length prices)%nat
                    then rsi_series prices else ind_RSI s |}
  end.

(** The update of [ohlc_data] in [update_price]; an empty list stays
    empty. *)
Definition update_ohlc (today : Z) (new_price volume_impact : Q)
    (bars : list Bar) : list Bar :=
  match last bars with
  | None => bars
  | Some last_day =>
      if today =? b_day last_day then
        <[ (length bars - 1)%nat :=
             {| b_day := b_day last_day; b_open := b_open last_day;
                b_high := Qmax (b_high last_day) new_price;
                b_low := Qmin (b_low last_day) new_price;
                b_close := new_price;
                b_volume := (b_volume last_day + volume_impact)%Q |} ]> bars
      else
        bars ++ [ {| b_day := today; b_open := new_price;
                     b_high := new_price; b_low := new_price;
                     b_close := new_price; b_volume := volume_impact |} ]
  end.

(** [update_price].  [now] and [now2] are the two readings of
    [datetime.now()], [rnd] is the value of [random.random()].  The result
    is [None] when [price_history[-1]] raises [IndexError] (empty history;
    nothing has been assigned at that point); otherwise the stock and the
    returned boolean. *)
Definition update_price (now now2 : DateTime) (rnd : Q) (volume_impact : Q)
    (s : Stock) : option (Stock * bool) :=
  if 1 <=? timedelta_seconds now (last_update s) then
    match last (price_history s) with
    | None => None
    | Some last_price =>
        let change_percent :=
          (volatility s * (rnd - (1 # 2)) + volume_impact * (1 # 10000))%Q in
        let new_price := Qmax (1 # 100) (last_price * (1 + change_percent)) in
        Some (update_indicators
                {| symbol := symbol s; name := name s;
                   price_history := price_history s ++ [new_price];
                   volatility := volatility s;
                   last_update := now;
                   volume_history := volume_history s ++ [volume_impact];
                   ohlc_data := update_ohlc (toordinal now2) new_price
                                  volume_impact (ohlc_data s);
                   ind_MA20 := ind_MA20 s; ind_MA50 := ind_MA50 s;
                   ind_RSI := ind_RSI s |},
              true)
    end
  else Some (s, false).

(** [get_current_price]. *)
Definition get_current_price (s : Stock) : Q :=
  match last (price_history s) with
  | Some x => x
  | None => 0
  end.

(** ** [TradingWindow.update_prices]

    Of the window only the two fields that the tick touches are kept:
    the dict [stocks], as the list of its items in insertion order, and the
    portfolio.  [update_display] only writes to widgets and is left out. *)

Record TradingWindow : Type := mkTradingWindow {
  stocks : list (string * Stock);
  portfolio : Portfolio
}.

(** What one call of [update_price] reads from outside: the two clock
    readings and the random number. *)
Record Draw : Type := mkDraw {
  d_now : DateTime;
  d_now2 : DateTime;
  d_rnd : Q
}.

(** [{symbol: stock.get_current_price() for symbol, stock in items}]. *)
Definition stock_prices_of (items : list (string * Stock)) : gmap string Q :=
  foldl (fun m kv => <[fst kv := get_current_price (snd kv)]> m) ∅ items.

(** [[o['symbol'] for o in pending_orders if o['status'] == 'pending']]. *)
Definition pending_symbols (p : Portfolio) : list string :=
  map o_symbol
    (List.filter (fun o => String.eqb (o_status o) "pending")
       (pending_orders p)).

(** [x in l] on a list of strings. *)
Definition str_in (x : string) (l : list string) : bool :=
  existsb (String.eqb x) l.

(** The loop over [self.stocks.values()], from position [i] on; [draws i]
    is what the call of [update_price] on the stock at position [i] reads.
    An [IndexError] of [update_price] ends the loop. *)
Fixpoint advance_stocks (draws : nat -> Draw) (p : Portfolio) (i : nat)
    (items : list (string * Stock)) : list (string * Stock) * Raised :=
  match items with
  | [] => ([], NoError)
  | (k, stock) :: rest =>
      if negb (str_in (symbol stock) (pending_symbols p)) then
        match update_price (d_now (draws i)) (d_now2 (draws i))
                (d_rnd (draws i)) 0 stock with
        | None => ((k, stock) :: rest, IndexError)
        | Some (stock', _) =>
            let r := advance_stocks draws p (S i) rest in
            ((k, stock') :: fst r, snd r)
        end
      else
        let r := advance_stocks draws p (S i) rest in
        ((k, stock) :: fst r, snd r)
  end.

Definition update_prices (draws : nat -> Draw) (clock : nat -> DateTime)
    (w : TradingWindow) : TradingWindow * Raised :=
  let stock_prices := stock_prices_of (stocks w) in
  match check_limit_orders stock_prices clock (portfolio w) with
  | (p', NoError) =>
      let r := advance_stocks draws p' 0 (stocks w) in
      ({| stocks := fst r; portfolio := p' |}, snd r)
  | (p', e) => ({| stocks := stocks w; portfolio := p' |}, e)
  end.

(** An order with status ["pending"] for the symbol [sym] is in the order
    list of [p]. *)
Definition has_pending_for (p : Portfolio) (sym : string) : Prop :=
  exists o, In o (pending_orders p)
            /\ o_status o = "pending" /\ o_symbol o = sym.

(** ** [datetime.isoformat] and [datetime.fromisoformat] *)

(** What the [datetime] constructor accepts. *)
Definition dt_valid (d : DateTime) : bool :=
  (1 <=? dt_year d) && (dt_year d <=? 9999)
  && (1 <=? dt_month d) && (dt_month d <=? 12)
  && (1 <=? dt_day d) && (dt_day d <=? days_in_month (dt_year d) (dt_month d))
  && (0 <=? dt_hour d) && (dt_hour d <=? 23)
  && (0 <=? dt_minute d) && (dt_minute d <=? 59)
  && (0 <=? dt_second d) && (dt_second d <=? 59)
  && (0 <=? dt_microsecond d) && (dt_microsecond d <=? 999999).

Definition digit_char (d : Z) : ascii := ascii_of_nat (48 + Z.to_nat d).

Definition digit_val (c : ascii) : option Z :=
  let n := Z.of_nat (nat_of_ascii c) in
  if (48 <=? n) && (n <=? 57) then Some (n - 48) else None.

(** The [w] low decimal digits of [n], most significant first, in front of
    [tail]. *)
Fixpoint digits_acc (w : nat) (n : Z) (tail : string) : string :=
  match w with
  | O => tail
  | S w' => digits_acc w' (n / 10) (String (digit_char (n mod 10)) tail)
  end.

(** ["%0wd" % n] for [0 <= n < 10^w], the only use made of it. *)
Definition pad (w : nat) (n : Z) : string := digits_acc w n "".

(** [isoformat()] of a naive datetime:
    [YYYY-MM-DDTHH:MM:SS], followed by [.ffffff] when the microsecond is
    not zero. *)
Definition isoformat (d : DateTime) : string :=
  (pad 4 (dt_year d) ++ "-" ++ pad 2 (dt_month d) ++ "-" ++ pad 2 (dt_day d)
   ++ "T" ++ pad 2 (dt_hour d) ++ ":" ++ pad 2 (dt_minute d) ++ ":"
   ++ pad 2 (dt_second d)
   ++ (if Z.eqb (dt_microsecond d) 0 then ""
       else "." ++ pad 6 (dt_microsecond d)))%string.

(** Reads [w] decimal digits from the front of [s]. *)
Fixpoint parse_digits (w : nat) (acc : Z) (s : string)
  : option (Z * string) :=
  match w with
  | O => Some (acc, s)
  | S w' =>
      match s with
      | String c rest =>
          match digit_val c with
          | Some d => parse_digits w' (acc * 10 + d) rest
          | None => None
          end
      | EmptyString => None
      end
  end.

(** Reads the character [c] from the front of [s]. *)
Definition expect (c : ascii) (s : string) : option string :=
  match s with
  | String c' rest => if Ascii.eqb c' c then Some rest else None
  | EmptyString => None
  end.

(** Any one character: the separator between date and time. *)
Definition skip_char (s : string) : option string :=
  match s with
  | String _ rest => Some rest
  | EmptyString => None
  end.

(** [fromisoformat], the inverse of [isoformat].  The two shapes that
    [isoformat] writes for a naive datetime are read; [None] stands for
    [ValueError].  The library reads a few more shapes (a date alone,
    times without seconds, UTC offsets), which no document written by
    [save_to_file] contains; they are not modelled and count as errors. *)
Definition fromisoformat (s : string) : option DateTime :=
  '(year, s) ← parse_digits 4 0 s;
  s ← expect "-" s;
  '(month, s) ← parse_digits 2 0 s;
  s ← expect "-" s;
  '(day, s) ← parse_digits 2 0 s;
  s ← skip_char s;
  '(hour, s) ← parse_digits 2 0 s;
  s ← expect ":" s;
  '(minute, s) ← parse_digits 2 0 s;
  s ← expect ":" s;
  '(second, s) ← parse_digits 2 0 s;
  '(microsecond, s) ←
     match s with
     | EmptyString => Some (0, s)
     | _ => s ← expect "." s; parse_digits 6 0 s
     end;
  match s with
  | EmptyString =>
      let d := mkDateTime year month day hour minute second microsecond in
      if dt_valid d then Some d else None
  | _ => None
  end.

(** ** JSON documents and the file system

    [json.dump] followed by [json.load] gives back the document it was
    given (dicts with string keys, lists, strings, ints and finite floats),
    so a file is modelled by the document it holds. *)

Local Unset Elimination Schemes.

Inductive json : Type :=
| JNull
| JBool (b : bool)
| JInt (n : Z)
| JFloat (q : Q)
| JString (s : string)
| JArray (items : list json)
| JObject (members : list (string * json)).

Local Set Elimination Schemes.

(** [d[k]] on a loaded object; of two members with one key the later one
    counts, as in [dict].  [None] stands for [KeyError] or [TypeError]. *)
Definition jget (k : string) (j : json) : option json :=
  match j with
  | JObject members =>
      snd <$> List.find (fun kv => String.eqb (fst kv) k) (rev members)
  | _ => None
  end.

(** The values of the record fields.  A document in which a field holds a
    value of another type is outside the record model and is reported as an
    error. *)
Definition as_string (j : json) : option string :=
  match j with JString s => Some s | _ => None end.

Definition as_int (j : json) : option Z :=
  match j with JInt n => Some n | _ => None end.

Definition as_float (j : json) : option Q :=
  match j with
  | JFloat q => Some q
  | JInt n => Some (inject_Z n)
  | _ => None
  end.

Definition as_array (j : json) : option (list json) :=
  match j with JArray l => Some l | _ => None end.

(** [dict(pairs)]: later pairs overwrite earlier ones. *)
Definition dict_of_pairs {A} (pairs : list (string * A)) : gmap string A :=
  foldl (fun m kv => <[fst kv := snd kv]> m) ∅ pairs.

Definition as_holdings (j : json) : option (gmap string Z) :=
  match j with
  | JObject members =>
      dict_of_pairs <$>
        mapM (fun kv => n ← as_int (snd kv); Some (fst kv, n)) members
  | _ => None
  end.

(** [{**t, 'time': t['time'].isoformat()}] for a transaction. *)
Definition transaction_to_json (t : Transaction) : json :=
  JObject [ ("type", JString (t_type t));
            ("symbol", JString (t_symbol t));
            ("shares", JInt (t_shares t));
            ("price", JFloat (t_price t));
            ("total", JFloat (t_total t));
            ("time", JString (isoformat (t_time t)));
            ("order_type", JString (t_order_type t)) ].

(** [{**o, 'time': o['time'].isoformat()}] for an order. *)
Definition order_to_json (o : Order) : json :=
  JObject [ ("type", JString (o_type o));
            ("symbol", JString (o_symbol o));
            ("shares", JInt (o_shares o));
            ("price", JFloat (o_price o));
            ("kind", JString (o_kind o));
            ("time", JString (isoformat (o_time o)));
            ("filled", JInt (o_filled o));
            ("status", JString (o_status o)) ].

(** [{**t, 'time': datetime.fromisoformat(t['time'])}]. *)
Definition transaction_of_json (j : json) : option Transaction :=
  time ← (jget "time" j ≫= as_string) ≫= fromisoformat;
  type ← jget "type" j ≫= as_string;
  sym ← jget "symbol" j ≫= as_string;
  shares ← jget "shares" j ≫= as_int;
  price ← jget "price" j ≫= as_float;
  total ← jget "total" j ≫= as_float;
  order_type ← jget "order_type" j ≫= as_string;
  Some {| t_type := type; t_symbol := sym; t_shares := shares;
          t_price := price; t_total := total; t_time := time;
          t_order_type := order_type |}.

Definition order_of_json (j : json) : option Order :=
  time ← (jget "time" j ≫= as_string) ≫= fromisoformat;
  type ← jget "type" j ≫= as_string;
  sym ← jget "symbol" j ≫= as_string;
  shares ← jget "shares" j ≫= as_int;
  price ← jget "price" j ≫= as_float;
  kind ← jget "kind" j ≫= as_string;
  filled ← jget "filled" j ≫= as_int;
  status ← jget "status" j ≫= as_string;
  Some {| o_type := type; o_symbol := sym; o_shares := shares;
          o_price := price; o_kind := kind; o_time := time;
          o_filled := filled; o_status := status |}.

(** [save_to_file]: the dict [data] is written to the file. *)
Definition portfolio_to_json (p : Portfolio) : json :=
  JObject [ ("cash", JFloat (cash p));
            ("holdings",
             JObject (map (fun kv => (fst kv, JInt (snd kv)))
                        (map_to_list (holdings p))));
            ("transaction_history",
             JArray (map transaction_to_json (transaction_history p)));
            ("pending_orders",
             JArray (map order_to_json (pending_orders p))) ].

Definition save_to_file (filename : string) (p : Portfolio)
    (fs : gmap string json) : gmap string json :=
  <[filename := portfolio_to_json p]> fs.

(** [load_from_file]: without the file the portfolio stays as it is;
    [None] stands for the exception raised on a document that cannot be
    read (the fields assigned before the exception are not tracked).  A
    document without the key ["pending_orders"] gives an empty
    order list. *)
Definition load_from_file (filename : string) (fs : gmap string json)
    (p : Portfolio) : option Portfolio :=
  match fs !! filename with
  | None => Some p
  | Some data =>
      new_cash ← jget "cash" data ≫= as_float;
      new_holdings ← jget "holdings" data ≫= as_holdings;
      history ← (jget "transaction_history" data ≫= as_array)
                  ≫= mapM transaction_of_json;
      orders ← match jget "pending_orders" data with
               | Some j => as_array j ≫= mapM order_of_json
               | None => Some []
               end;
      Some {| cash := new_cash; holdings := new_holdings;
              transaction_history := history; pending_orders := orders |}
  end.

(** ** Reachable portfolios

    The portfolios that the program can hold: a new [Portfolio], and what
    the methods of [Portfolio], the cancellation of [TradingWindow] and the
    loading of a file written by [save_to_file] make of a reachable one. *)

Inductive reachable : Portfolio -> Prop :=
| reach_init (initial_cash : Q) : reachable (Portfolio_init initial_cash)
| reach_place now side sym shares price kind p :
    reachable p ->
    reachable (fst (place_order now side sym shares price kind p))
| reach_buy now sym shares price p :
    reachable p -> reachable (fst (buy_stock now sym shares price p))
| reach_sell now sym shares price p :
    reachable p -> reachable (fst (sell_stock now sym shares price p))
| reach_execute now o p :
    reachable p -> reachable (fst (execute_market_order now o p))
| reach_check stock_prices clock p :
    reachable p -> reachable (fst (check_limit_orders stock_prices clock p))
| reach_cancel row p :
    reachable p -> reachable (cancel_order row p)
| reach_load filename fs p q p' :
    reachable p -> reachable q ->
    fs !! filename = Some (portfolio_to_json q) ->
    load_from_file filename fs p = Some p' ->
    reachable p'.

(** The record was logged as a market trade. *)
Definition is_market (t : Transaction) : Prop := t_order_type t = "market".

(** ** Predicates used in the statements *)

(** Two portfolios with the same cash, holdings and log. *)
Definition same_ledger (p q : Portfolio) : Prop :=
  cash p = cash q /\ holdings p = holdings q
  /\ transaction_history p = transaction_history q.

(** The log of [p'] is the log of [p] followed by market records. *)
Definition appends_market (p p' : Portfolio) : Prop :=
  exists l, transaction_history p' = transaction_history p ++ l
            /\ Forall is_market l.

(** A finite value that is not negative. *)
Definition nonneg_fin (x : fval) : Prop :=
  exists a, x = Fin a /\ (0 <= a)%Q.

(** A difference of two closes, or the NaN that [diff] puts first. *)
Definition fin_or_nan (x : fval) : Prop := x = NaN \/ exists a, x = Fin a.

(** A finite value between [lo] and [hi]. *)
Definition fin_between (lo hi : Q) (x : fval) : Prop :=
  exists c, x = Fin c /\ (lo <= c)%Q /\ (c <= hi)%Q.

(** ** Valuation methods of [Portfolio] *)


(** [get_average_buy_price]. *)
Definition buys_of (sym : string) (history : list Transaction)
  : list Transaction :=
  List.filter (fun t => String.eqb (t_type t) "buy"
                        && String.eqb (t_symbol t) sym) history.

Definition get_average_buy_price (sym : string) (p : Portfolio) : Q :=
  let buys := buys_of sym (transaction_history p) in
  let total_shares := foldl (fun acc t => acc + t_shares t) 0 buys in
  let total_cost := foldl (fun acc t => (acc + t_total t)%Q) 0%Q buys in
  if 0 <? total_shares then (total_cost / inject_Z total_shares)%Q else 0%Q.

(** ** Views of [Stock] *)

(** The slice [l[-days:]]: the last [days] items for a positive [days], the
    whole list for [days = 0] (since [-0] is [0]), and [l[k:]] for
    [days = -k]. *)
Definition slice_last {A} (days : Z) (l : list A) : list A :=
  if 0 <? days then drop (length l - Z.to_nat days) l
  else drop (Z.to_nat (- days)) l.

(** [get_ohlc_data] and [get_volume_data]. *)
Definition get_ohlc_data (days : Z) (s : Stock) : list Bar :=
  match ohlc_data s with
  | [] => []
  | _ => slice_last days (ohlc_data s)
  end.

Definition get_volume_data (days : Z) (s : Stock) : list Q :=
  match ohlc_data s with
  | [] => []
  | _ => map b_volume (slice_last days (ohlc_data s))
  end.

(** ** [TradingWindow.execute_trade] and [fetch_initial_prices] *)

(** [self.stocks[symbol]] and the write-through to the stock object. *)
Fixpoint stocks_get (k : string) (items : list (string * Stock))
  : option Stock :=
  match items with
  | [] => None
  | (k', s) :: rest => if String.eqb k' k then Some s else stocks_get k rest
  end.

Fixpoint stocks_set (k : string) (s' : Stock) (items : list (string * Stock))
  : list (string * Stock) :=
  match items with
  | [] => []
  | (k', s) :: rest =>
      if String.eqb k' k then (k', s') :: rest
      else (k', s) :: stocks_set k s' rest
  end.

(** What [execute_trade] reads from the widgets: the lower-cased text of
    the action box (its items are "Kaufen" and "Verkaufen"), the text of
    the order type box, the two spin boxes, the impact slider, and the
    selected stock. *)
Record TradeForm : Type := mkTradeForm {
  f_action : string;
  f_order_type : string;
  f_shares : Z;
  f_price : Q;
  f_market_impact : Q;
  f_current_stock : string
}.

(** [execute_trade].  The message boxes and [update_display] only show
    things.  [d] is what [update_price] reads, [now] the clock reading of
    the trade or of [place_order]. *)
Definition execute_trade (d : Draw) (now : DateTime) (f : TradeForm)
    (w : TradingWindow) : TradingWindow * Raised :=
  let action := f_action f in
  let order_kind :=
    if String.eqb (f_order_type f) "Market Order" then "market" else "limit" in
  let shares := f_shares f in
  let price := f_price f in
  let sym := f_current_stock f in
  if String.eqb order_kind "market" then
    let volume_impact := (inject_Z shares * f_market_impact f)%Q in
    match stocks_get sym (stocks w) with
    | None => (w, KeyError sym)
    | Some stock =>
        match update_price (d_now d) (d_now2 d) (d_rnd d) volume_impact
                stock with
        | None => (w, IndexError)
        | Some (stock', _) =>
            let stocks' := stocks_set sym stock' (stocks w) in
            let r := if String.eqb action "kaufen"
                     then buy_stock now sym shares price (portfolio w)
                     else sell_stock now sym shares price (portfolio w) in
            ({| stocks := stocks'; portfolio := fst r |}, NoError)
        end
    end
  else
    let r := place_order now action sym shares price "limit" (portfolio w) in
    ({| stocks := stocks w; portfolio := fst r |}, NoError).




(** ** The ledger read from the log *)







(** Every holding is a positive share count. *)
Definition positive_holdings (p : Portfolio) : Prop :=
  forall sym held, holdings p !! sym = Some held -> 0 < held.

(** ** What a pass does to one order *)

(** The order [o] as a pass with the prices [P] leaves it: a pending limit
    order that triggers gets the status ["filled"], every other order is
    left alone. *)
Definition pass_update (P : gmap string Q) (o : Order) : Order :=
  if String.eqb (o_kind o) "limit" && String.eqb (o_status o) "pending" then
    match P !! o_symbol o with
    | Some cp => if triggers o cp then set_status "filled" o else o
    | None => o
    end
  else o.

(** ** The value of the holdings *)




(** The two sums of [get_average_buy_price]. *)
Definition bought_shares (sym : string) (p : Portfolio) : Z :=
  foldl (fun acc t => acc + t_shares t) 0
    (buys_of sym (transaction_history p)).

Definition bought_cost (sym : string) (p : Portfolio) : Q :=
  foldl (fun acc t => (acc + t_total t)%Q) 0%Q
    (buys_of sym (transaction_history p)).

(** ** Well-formed bars *)

(** The high is not below the open and the close, the low not above
    them. *)
Definition bar_ok (b : Bar) : Prop :=
  (b_low b <= b_open b)%Q /\ (b_low b <= b_close b)%Q
  /\ (b_open b <= b_high b)%Q /\ (b_close b <= b_high b)%Q.

(** The day ordinals of the bars increase strictly. *)
Definition days_increasing (bars : list Bar) : Prop :=
  forall i j bi bj,
    bars !! i = Some bi -> bars !! j = Some bj -> (i < j)%nat ->
    b_day bi < b_day bj.

(** ** Orders that no pass can fill *)

(** A pending order whose type is neither ["buy"] nor ["sell"]. *)
Definition stuck_order (o : Order) : Prop :=
  o_status o = "pending" /\ o_type o <> "buy" /\ o_type o <> "sell".

(** ** [Stock.generate_fake_historical_data] *)

(** What one round of the loop reads from outside: the clock, the four
    values of [random.uniform] (for open, close, high and low, in this
    order) and the value of [random.randint]. *)
Record FakeDraw : Type := mkFakeDraw {
  fd_now : DateTime;
  fd_open : Q;
  fd_close : Q;
  fd_high : Q;
  fd_low : Q;
  fd_volume : Z
}.

(** The rounds [i, i+1, ..., i+n-1] of the loop over [range(60)].  The date
    [60 - i] days before [now] has the ordinal of [now] minus [60 - i]. *)
Fixpoint fake_bars (n i : nat) (base_price : Q) (draws : nat -> FakeDraw)
  : list Bar :=
  match n with
  | O => []
  | S n' =>
      let d := draws i in
      let day := toordinal (fd_now d) - (60 - Z.of_nat i) in
      let open_price := (base_price * (1 + fd_open d))%Q in
      let close_price := (open_price * (1 + fd_close d))%Q in
      let high_price := (Qmax open_price close_price * (1 + fd_high d))%Q in
      let low_price := (Qmin open_price close_price * (1 - fd_low d))%Q in
      {| b_day := day; b_open := open_price; b_high := high_price;
         b_low := low_price; b_close := close_price;
         b_volume := inject_Z (fd_volume d) |}
      :: fake_bars n' (S i) close_price draws
  end.

(** [base_price] is the value of [random.uniform(50, 500)]. *)
Definition generate_fake_historical_data (base_price : Q)
    (draws : nat -> FakeDraw) (s : Stock) : Stock :=
  {| symbol := symbol s; name := name s;
     price_history := price_history s; volatility := volatility s;
     last_update := last_update s; volume_history := volume_history s;
     ohlc_data := fake_bars 60 0 base_price draws;
     ind_MA20 := ind_MA20 s; ind_MA50 := ind_MA50 s; ind_RSI := ind_RSI s |}.

(** The values of [random.uniform] lie in the intervals they were asked
    for. *)
Definition fake_draw_ok (d : FakeDraw) : Prop :=
  (- (2 # 100) <= fd_open d)%Q /\ (fd_open d <= 2 # 100)%Q
  /\ (- (3 # 100) <= fd_close d)%Q /\ (fd_close d <= 3 # 100)%Q
  /\ (0 <= fd_high d)%Q /\ (fd_high d <= 2 # 100)%Q
  /\ (0 <= fd_low d)%Q /\ (fd_low d <= 2 # 100)%Q.

(** ** Values used in the examples *)

(** A clock reading used in the examples. *)
Definition t0 : DateTime := mkDateTime 2024 1 15 12 30 0 0.
(** A portfolio holding 5 shares of AAPL and 100 in cash. *)
Definition small_portfolio : Portfolio :=
  {| cash := 100; holdings := {[ "AAPL" := 5 ]};
     transaction_history := []; pending_orders := [] |}.

(** A stock whose daily bars close at the given prices, one bar per day
    from day [first_day] on. *)
Fixpoint bars_of_closes (first_day : Z) (closes : list Q) : list Bar :=
  match closes with
  | [] => []
  | c :: rest =>
      {| b_day := first_day; b_open := c; b_high := c; b_low := c;
         b_close := c; b_volume := 0 |} :: bars_of_closes (first_day + 1) rest
  end.

Definition stock_of_closes (sym : string) (closes : list Q) : Stock :=
  {| symbol := sym; name := sym;
     price_history := closes; volatility := 2 # 100;
     last_update := t0; volume_history := [0%Q];
     ohlc_data := bars_of_closes 738900 closes;
     ind_MA20 := []; ind_MA50 := []; ind_RSI := [] |}.

(** Fourteen days closing at 10, and fifteen days closing at 1, 2, ..., 15. *)
Definition flat_stock : Stock := stock_of_closes "AAPL" (repeat 10%Q 14).

Definition rising_stock : Stock :=
  stock_of_closes "AAPL" (map (fun n => inject_Z (Z.of_nat n)) (seq 1 15)).

(** A window with two stocks at price 100 and one pending limit buy of 10
    AAPL at 50, placed at [t0]; and a tick two seconds later in which
    [random.random()] gives 3/4. *)
Definition aapl : Stock := stock_of_closes "AAPL" [100%Q].
Definition msft : Stock := stock_of_closes "MSFT" [100%Q].

Definition two_stock_window : TradingWindow :=
  {| stocks := [("AAPL", aapl); ("MSFT", msft)];
     portfolio := fst (place_order t0 "buy" "AAPL" 10 50 "limit"
                         (Portfolio_init default_cash)) |}.

Definition t2 : DateTime := mkDateTime 2024 1 15 12 30 2 0.

Definition draw2 : Draw := {| d_now := t2; d_now2 := t2; d_rnd := 3 # 4 |}.

(** A portfolio after a buy, the placing of a limit order and a sell. *)
Definition traded_portfolio : Portfolio :=
  fst (sell_stock t2 "AAPL" 3 (201 # 2)
         (fst (place_order t0 "buy" "MSFT" 2 30 "limit"
                 (fst (buy_stock t0 "AAPL" 10 100
                         (Portfolio_init default_cash)))))).

(** Twenty days closing at 10. *)
Definition steady_stock : Stock := stock_of_closes "AAPL" (repeat 10%Q 20).

(** A round of the synthetic history in which every random value is 0. *)
Definition calm_draw : FakeDraw :=
  {| fd_now := t0; fd_open := 0; fd_close := 0; fd_high := 0; fd_low := 0;
     fd_volume := 1000000 |}.

(** * Properties *)

(** ** Comparisons on rationals *)

Lemma Qgt_bool_true x y : Qgt_bool x y = true <-> (y < x)%Q.
Proof.
  unfold Qgt_bool. rewrite negb_true_iff. split.
  - intros H. apply Qnot_le_lt. intros Hle.
    apply Qle_bool_iff in Hle. congruence.
  - intros H. destruct (Qle_bool x y) eqn:E; [|reflexivity].
    apply Qle_bool_iff in E. exfalso. exact (Qlt_not_le _ _ H E).
Qed.

Lemma Qgt_bool_false x y : Qgt_bool x y = false <-> (x <= y)%Q.
Proof.
  unfold Qgt_bool. rewrite negb_false_iff. apply Qle_bool_iff.
Qed.

(** ** Buying and selling *)

Lemma buy_stock_ok now S n price p :
  (inject_Z n * price <= cash p)%Q ->
  buy_stock now S n price p =
    ({| cash := (cash p - inject_Z n * price)%Q;
        holdings :=
          match holdings p !! S with
          | Some held => <[S := held + n]> (holdings p)
          | None => <[S := n]> (holdings p)
          end;
        transaction_history :=
          transaction_history p ++
            [ {| t_type := "buy"; t_symbol := S; t_shares := n;
                 t_price := price; t_total := (inject_Z n * price)%Q;
                 t_time := now; t_order_type := "market" |} ];
        pending_orders := pending_orders p |},
     (true, msg_bought)).
Proof.
  intros H. unfold buy_stock.
  apply Qgt_bool_false in H. rewrite H. reflexivity.
Qed.

Lemma buy_stock_fail now S n price p :
  (cash p < inject_Z n * price)%Q ->
  buy_stock now S n price p = (p, (false, msg_no_money)).
Proof.
  intros H. unfold buy_stock.
  apply Qgt_bool_true in H. rewrite H. reflexivity.
Qed.

(** C1. With [cash >= n*p], [buy_stock] succeeds; the cash goes down by
    exactly [n*p]; the holding of [S] goes up by [n] (and is [n] when [S]
    was not held); the other holdings and the order list are kept; the log
    grows by exactly one record, a buy of [n] shares of [S] whose total is
    [n*p]. *)
Theorem buy_stock_sufficient_cash (now : DateTime) (S : string) (n : Z)
    (price : Q) (p : Portfolio) :
  (inject_Z n * price <= cash p)%Q ->
  let r := buy_stock now S n price p in
  snd r = (true, msg_bought)
  /\ cash (fst r) = (cash p - inject_Z n * price)%Q
  /\ holdings (fst r) !! S = Some (default 0 (holdings p !! S) + n)
  /\ (holdings p !! S = None -> holdings (fst r) !! S = Some n)
  /\ (forall S', S' <> S -> holdings (fst r) !! S' = holdings p !! S')
  /\ pending_orders (fst r) = pending_orders p
  /\ exists t,
       transaction_history (fst r) = transaction_history p ++ [t]
       /\ t_total t = (inject_Z n * price)%Q
       /\ t_type t = "buy" /\ t_symbol t = S /\ t_shares t = n
       /\ t_price t = price.
Proof.
  intros H r. subst r. rewrite (buy_stock_ok now S n price p H). cbn.
  split; [reflexivity|]. split; [reflexivity|].
  split; [|split; [|split; [|split; [reflexivity|]]]].
  - destruct (holdings p !! S) as [held|] eqn:E; cbn;
      rewrite lookup_insert_eq; reflexivity.
  - intros E. rewrite E. apply lookup_insert_eq.
  - intros S' Hne.
    destruct (holdings p !! S); rewrite lookup_insert_ne; congruence.
  - eexists. split; [reflexivity|]. cbn. repeat split.
Qed.

Lemma buy_stock_sufficient_cash_witness :
  (inject_Z 10 * 100 <= cash (Portfolio_init default_cash))%Q
  /\ cash (fst (buy_stock t0 "AAPL" 10 100 (Portfolio_init default_cash)))
     = (default_cash - inject_Z 10 * 100)%Q
  /\ holdings (fst (buy_stock t0 "AAPL" 10 100 (Portfolio_init default_cash)))
       !! "AAPL" = Some 10.
Proof.
  assert (H : (inject_Z 10 * 100 <= cash (Portfolio_init default_cash))%Q)
    by (unfold Qle; simpl; lia).
  split; [exact H|].
  pose proof (buy_stock_sufficient_cash t0 "AAPL" 10 100
                (Portfolio_init default_cash) H) as T.
  split; [exact (proj1 (proj2 T)) | exact (proj1 (proj2 (proj2 T)))].
Defined.

Lemma sell_stock_not_held now S n price p :
  holdings p !! S = None ->
  sell_stock now S n price p = (p, (false, msg_no_shares)).
Proof. intros H. unfold sell_stock. rewrite H. reflexivity. Qed.

Lemma sell_stock_too_few now S n price p held :
  holdings p !! S = Some held -> held < n ->
  sell_stock now S n price p = (p, (false, msg_no_shares)).
Proof.
  intros H Hlt. unfold sell_stock. rewrite H.
  apply Z.ltb_lt in Hlt. rewrite Hlt. reflexivity.
Qed.

(** C2. A buy with [cash < n*p] returns [(False, reason)] and the portfolio
    it was given; a sell of [n] shares of a symbol that is not held, or of
    which fewer than [n] are held, does the same.  The reason is a message
    that is not empty, and the returned state is the input state itself:
    cash, holdings, log and order list are untouched. *)
Theorem insufficient_resources_no_mutation (now : DateTime) (S : string)
    (n : Z) (price : Q) (p : Portfolio) :
  ((cash p < inject_Z n * price)%Q ->
     buy_stock now S n price p = (p, (false, msg_no_money)))
  /\ ((holdings p !! S = None
       \/ exists held, holdings p !! S = Some held /\ held < n) ->
     sell_stock now S n price p = (p, (false, msg_no_shares)))
  /\ msg_no_money <> "" /\ msg_no_shares <> "".
Proof.
  split; [apply buy_stock_fail|].
  split; [|split; discriminate].
  intros [H | [held [H Hlt]]].
  - apply sell_stock_not_held; assumption.
  - eapply sell_stock_too_few; eassumption.
Qed.

Lemma insufficient_resources_no_mutation_witness :
  buy_stock t0 "AAPL" 10 50 small_portfolio
    = (small_portfolio, (false, msg_no_money))
  /\ sell_stock t0 "AAPL" 6 50 small_portfolio
    = (small_portfolio, (false, msg_no_shares))
  /\ sell_stock t0 "MSFT" 1 50 small_portfolio
    = (small_portfolio, (false, msg_no_shares)).
Proof.
  split; [|split].
  - apply (proj1 (insufficient_resources_no_mutation t0 "AAPL" 10 50
                    small_portfolio)).
    unfold Qlt; simpl; lia.
  - apply (proj1 (proj2 (insufficient_resources_no_mutation t0 "AAPL" 6 50
                           small_portfolio))).
    right. exists 5. split; [reflexivity | lia].
  - apply (proj1 (proj2 (insufficient_resources_no_mutation t0 "MSFT" 1 50
                           small_portfolio))).
    left. reflexivity.
Defined.

(** ** The limit-order pass *)

Lemma buy_stock_pending now S n price p :
  pending_orders (fst (buy_stock now S n price p)) = pending_orders p.
Proof. unfold buy_stock. destruct (Qgt_bool _ _); reflexivity. Qed.

Lemma sell_stock_pending now S n price p :
  pending_orders (fst (sell_stock now S n price p)) = pending_orders p.
Proof.
  unfold sell_stock. destruct (holdings p !! S); [|reflexivity].
  destruct (_ <? _); reflexivity.
Qed.

Lemma execute_market_order_pending now o p :
  pending_orders (fst (execute_market_order now o p)) = pending_orders p.
Proof.
  unfold execute_market_order. destruct (String.eqb _ _);
    [apply buy_stock_pending | apply sell_stock_pending].
Qed.

(** The two triggering branches of the loop body do the same thing, so the
    body is a case split on [triggers]. *)
Lemma limit_step_triggers P now i o p cp :
  o_kind o = "limit" -> o_status o = "pending" ->
  P !! o_symbol o = Some cp ->
  limit_step P now i o p =
    (if triggers o cp
     then mark_filled i (fst (execute_market_order now o p)) else p,
     NoError).
Proof.
  intros Hk Hs HP. unfold limit_step, triggers. rewrite Hk, Hs, HP. cbn.
  destruct (String.eqb (o_type o) "buy" && Qle_bool cp (o_price o));
    [reflexivity|].
  destruct (String.eqb (o_type o) "sell" && Qle_bool (o_price o) cp);
    reflexivity.
Qed.

(** An order that is not a pending limit order is skipped. *)
Lemma limit_step_skip P now i o p :
  o_kind o <> "limit" \/ o_status o <> "pending" ->
  limit_step P now i o p = (p, NoError).
Proof.
  intros H. unfold limit_step.
  destruct (String.eqb_spec (o_kind o) "limit") as [Hk|Hk]; [|reflexivity].
  destruct (String.eqb_spec (o_status o) "pending") as [Hs|Hs];
    [|reflexivity].
  destruct H; contradiction.
Qed.

(** Iteration [i] writes to position [i] of the order list only. *)
Lemma limit_step_other P now i o p j :
  j <> i ->
  pending_orders (fst (limit_step P now i o p)) !! j = pending_orders p !! j.
Proof.
  intros Hne. unfold limit_step.
  destruct (_ && _); [|reflexivity].
  destruct (P !! o_symbol o) as [cp|]; [|reflexivity].
  destruct (_ && _); [|destruct (_ && _); [|reflexivity]]; cbn;
    (rewrite list_lookup_alter_ne by congruence);
    rewrite execute_market_order_pending; reflexivity.
Qed.

Lemma check_loop_other P clock snapshot : forall i p j,
  (j < i)%nat ->
  pending_orders (fst (check_loop P clock i snapshot p)) !! j
  = pending_orders p !! j.
Proof.
  induction snapshot as [|o rest IH]; intros i p j Hlt; [reflexivity|].
  cbn [check_loop].
  pose proof (limit_step_other P (clock i) i o p j ltac:(lia)) as Hstep.
  destruct (limit_step P (clock i) i o p) as [p' [|k|]]; cbn in Hstep;
    [rewrite IH by lia|..]; exact Hstep.
Qed.

(** Objects further down the copy are still as they were when the loop
    reaches them: reading the copy is reading the live list. *)
Lemma check_loop_ahead P clock snapshot : forall i p j,
  (i + length snapshot <= j)%nat ->
  pending_orders (fst (check_loop P clock i snapshot p)) !! j
  = pending_orders p !! j.
Proof.
  induction snapshot as [|o rest IH]; intros i p j Hle; [reflexivity|].
  cbn [check_loop]. cbn [length] in Hle.
  pose proof (limit_step_other P (clock i) i o p j ltac:(lia)) as Hstep.
  destruct (limit_step P (clock i) i o p) as [p' [|k|]]; cbn in Hstep;
    [rewrite IH by lia|..]; exact Hstep.
Qed.

(** The pass over a copy [l1 ++ l2] is the pass over [l1] followed, when
    that one did not raise, by the pass over [l2]. *)
Lemma check_loop_app P clock l1 : forall l2 i p,
  check_loop P clock i (l1 ++ l2) p =
    match check_loop P clock i l1 p with
    | (p', NoError) => check_loop P clock (i + length l1) l2 p'
    | (p', e) => (p', e)
    end.
Proof.
  induction l1 as [|o rest IH]; intros l2 i p; cbn [check_loop app length].
  - rewrite Nat.add_0_r. reflexivity.
  - destruct (limit_step P (clock i) i o p) as [p' [|k|]];
      [|reflexivity..].
    rewrite IH. replace (S i + length rest)%nat with (i + S (length rest))%nat
      by lia. reflexivity.
Qed.

Lemma check_loop_middle P clock l1 o l2 p p1 :
  check_loop P clock 0 l1 p = (p1, NoError) ->
  check_loop P clock 0 (l1 ++ o :: l2) p =
    match limit_step P (clock (length l1)) (length l1) o p1 with
    | (p', NoError) => check_loop P clock (S (length l1)) l2 p'
    | (p', e) => (p', e)
    end.
Proof.
  intros H. rewrite check_loop_app, H. reflexivity.
Qed.

Lemma triggers_iff o cp :
  triggers o cp = true <->
  (o_type o = "buy" /\ (cp <= o_price o)%Q)
  \/ (o_type o = "sell" /\ (o_price o <= cp)%Q).
Proof.
  unfold triggers.
  rewrite orb_true_iff, !andb_true_iff, !Qle_bool_iff, !String.eqb_eq.
  reflexivity.
Qed.

(** C3 (as amended).  Let [o] be a pending limit order at position [i] of
    the order list, let the price map hold a price [cp] for its symbol, and
    let the pass reach [o] (no earlier order stopped it with a missing
    symbol) in state [p_i].  The pass goes on from a state [p_i'] such
    that:
    - [o] triggers exactly when it is a buy and [cp <= o.price], or a sell
      and [cp >= o.price];
    - when [o] does not trigger, [p_i'] is [p_i];
    - when [o] triggers, cash, holdings and log of [p_i'] are those left by
      [execute_market_order] on [o], which for a buy is [buy_stock] at the
      stored price [o.price] and never looks at [cp];
    - so a triggered buy of [n] shares, when the cash at that moment covers
      [n * o.price], takes exactly [n * o.price] from the cash, adds [n] to
      the holding and logs a record at price [o.price]; when the cash does
      not cover it, cash, holdings and log stay as they are. *)
Theorem limit_order_fills_at_stored_price (P : gmap string Q)
    (clock : nat -> DateTime) (p : Portfolio) (i : nat) (o : Order)
    (cp : Q) (p_i : Portfolio) :
  pending_orders p !! i = Some o ->
  o_kind o = "limit" -> o_status o = "pending" ->
  P !! o_symbol o = Some cp ->
  check_loop P clock 0 (take i (pending_orders p)) p = (p_i, NoError) ->
  exists p_i',
    check_limit_orders P clock p
      = check_loop P clock (S i) (drop (S i) (pending_orders p)) p_i'
    /\ (triggers o cp = true <->
        (o_type o = "buy" /\ (cp <= o_price o)%Q)
        \/ (o_type o = "sell" /\ (o_price o <= cp)%Q))
    /\ (triggers o cp = false -> p_i' = p_i)
    /\ (triggers o cp = true ->
        same_ledger p_i' (fst (execute_market_order (clock i) o p_i)))
    /\ (o_type o = "buy" ->
        execute_market_order (clock i) o p_i
          = buy_stock (clock i) (o_symbol o) (o_shares o) (o_price o) p_i)
    /\ (o_type o = "buy" -> (cp <= o_price o)%Q ->
        (inject_Z (o_shares o) * o_price o <= cash p_i)%Q ->
        cash p_i' = (cash p_i - inject_Z (o_shares o) * o_price o)%Q
        /\ holdings p_i' !! o_symbol o
           = Some (default 0 (holdings p_i !! o_symbol o) + o_shares o)
        /\ exists t,
             transaction_history p_i' = transaction_history p_i ++ [t]
             /\ t_price t = o_price o
             /\ t_total t = (inject_Z (o_shares o) * o_price o)%Q)
    /\ (o_type o = "buy" -> (cp <= o_price o)%Q ->
        (cash p_i < inject_Z (o_shares o) * o_price o)%Q ->
        same_ledger p_i' p_i).
Proof.
  intros Hi Hk Hs HP Hpre.
  assert (Hlen : length (take i (pending_orders p)) = i).
  { rewrite length_take. apply lookup_lt_Some in Hi. lia. }
  set (p_i' := if triggers o cp
               then mark_filled i (fst (execute_market_order (clock i) o p_i))
               else p_i).
  assert (Hexec : o_type o = "buy" ->
    execute_market_order (clock i) o p_i
      = buy_stock (clock i) (o_symbol o) (o_shares o) (o_price o) p_i).
  { intros Hb. unfold execute_market_order. rewrite Hb. reflexivity. }
  exists p_i'. split.
  { unfold check_limit_orders.
    rewrite <- (take_drop_middle (pending_orders p) i o Hi) at 1.
    rewrite (check_loop_middle _ _ _ _ _ _ _ Hpre), Hlen.
    rewrite (limit_step_triggers P (clock i) i o p_i cp Hk Hs HP).
    reflexivity. }
  split; [apply triggers_iff|].
  split; [intros Ht; subst p_i'; rewrite Ht; reflexivity|].
  split; [intros Ht; subst p_i'; rewrite Ht; repeat split|].
  split; [exact Hexec|]. split.
  - intros Hb Hle Hcash.
    assert (Ht : triggers o cp = true) by (apply triggers_iff; auto).
    subst p_i'. rewrite Ht, (Hexec Hb), (buy_stock_ok _ _ _ _ _ Hcash).
    cbn. split; [reflexivity|]. split.
    + destruct (holdings p_i !! o_symbol o) as [held|] eqn:E; cbn;
        rewrite lookup_insert_eq; reflexivity.
    + eexists. split; [reflexivity|]. split; reflexivity.
  - intros Hb Hle Hcash.
    assert (Ht : triggers o cp = true) by (apply triggers_iff; auto).
    subst p_i'. rewrite Ht, (Hexec Hb), (buy_stock_fail _ _ _ _ _ Hcash).
    repeat split.
Qed.

(** The status of the order after a pass that ends without error. *)
Lemma limit_order_status_after_pass (P : gmap string Q)
    (clock : nat -> DateTime) (p : Portfolio) (i : nat) (o : Order)
    (cp : Q) (p_i p_end : Portfolio) :
  pending_orders p !! i = Some o ->
  o_kind o = "limit" -> o_status o = "pending" ->
  P !! o_symbol o = Some cp ->
  check_loop P clock 0 (take i (pending_orders p)) p = (p_i, NoError) ->
  check_limit_orders P clock p = (p_end, NoError) ->
  o_status <$> pending_orders p_end !! i
    = Some (if triggers o cp then "filled" else "pending").
Proof.
  intros Hi Hk Hs HP Hpre Hend.
  assert (Hlen : length (take i (pending_orders p)) = i).
  { rewrite length_take. apply lookup_lt_Some in Hi. lia. }
  unfold check_limit_orders in Hend.
  rewrite <- (take_drop_middle (pending_orders p) i o Hi) in Hend at 1.
  rewrite (check_loop_middle _ _ _ _ _ _ _ Hpre), Hlen in Hend.
  rewrite (limit_step_triggers P (clock i) i o p_i cp Hk Hs HP) in Hend.
  match type of Hend with
  | check_loop _ _ _ ?rest ?q = _ =>
      pose proof (check_loop_other P clock rest (S i) q i ltac:(lia)) as Hkeep
  end.
  rewrite Hend in Hkeep. cbn [fst] in Hkeep. rewrite Hkeep.
  pose proof (check_loop_ahead P clock (take i (pending_orders p))
                0%nat p i ltac:(lia)) as Hlive.
  rewrite Hpre in Hlive. cbn [fst] in Hlive. rewrite Hi in Hlive.
  destruct (triggers o cp).
  - cbn. rewrite list_lookup_alter_eq, execute_market_order_pending, Hlive.
    reflexivity.
  - rewrite Hlive. cbn. rewrite Hs. reflexivity.
Qed.

(** The scenario of the specification: a limit buy of 10 AAPL at 150 is
    placed with 10000 in cash; a tick at price 140 fills it at 150. *)
Lemma limit_order_fills_at_stored_price_witness :
  cash (fst (check_limit_orders {[ "AAPL" := 140%Q ]} (fun _ => t0)
               (fst (place_order t0 "buy" "AAPL" 10 150 "limit"
                       (Portfolio_init 10000)))))
    = (10000 - inject_Z 10 * 150)%Q
  /\ holdings (fst (check_limit_orders {[ "AAPL" := 140%Q ]} (fun _ => t0)
                      (fst (place_order t0 "buy" "AAPL" 10 150 "limit"
                              (Portfolio_init 10000)))))
       !! "AAPL" = Some 10.
Proof.
  pose (p := fst (place_order t0 "buy" "AAPL" 10 150 "limit"
                    (Portfolio_init 10000))).
  pose (o := new_order t0 "buy" "AAPL" 10 150 "limit").
  assert (Hi : pending_orders p !! 0%nat = Some o) by reflexivity.
  assert (HP : ({[ "AAPL" := 140%Q ]} : gmap string Q) !! o_symbol o
               = Some 140%Q) by reflexivity.
  assert (Hpre : check_loop {[ "AAPL" := 140%Q ]} (fun _ => t0) 0
                   (take 0 (pending_orders p)) p = (p, NoError))
    by reflexivity.
  destruct (limit_order_fills_at_stored_price {[ "AAPL" := 140%Q ]}
              (fun _ => t0) p 0%nat o 140%Q p Hi eq_refl eq_refl HP Hpre)
    as (p_i' & Hrun & _ & _ & _ & _ & Hbuy & _).
  assert (Hle : (140 <= o_price o)%Q) by (unfold Qle; simpl; lia).
  assert (Hcash : (inject_Z (o_shares o) * o_price o <= cash p)%Q)
    by (unfold Qle; simpl; lia).
  destruct (Hbuy eq_refl Hle Hcash) as (Hc & Hh & _).
  fold p. rewrite Hrun. cbn [drop pending_orders check_loop fst].
  split; [exact Hc | exact Hh].
Defined.

(** C3, as it is stated, fails when the cash does not cover the order at
    the moment it triggers: a limit buy of 10 AAPL at 50 with 100 in cash
    triggers at price 40, and [buy_stock] refuses it.  Nothing is debited
    and nothing is credited. *)
Lemma triggered_limit_buy_not_debited :
  let p := fst (place_order t0 "buy" "AAPL" 10 50 "limit"
                  (Portfolio_init 100)) in
  let o := new_order t0 "buy" "AAPL" 10 50 "limit" in
  let r := check_limit_orders {[ "AAPL" := 40%Q ]} (fun _ => t0) p in
  pending_orders p !! 0%nat = Some o
  /\ triggers o 40 = true
  /\ snd r = NoError
  /\ cash (fst r) = 100%Q
  /\ holdings (fst r) !! "AAPL" = None
  /\ ~ (cash (fst r) == cash p - inject_Z 10 * 50)%Q.
Proof.
  cbv zeta. repeat split; try reflexivity.
  vm_compute. discriminate.
Qed.

(** What the loop body does with a triggered order whose execution is
    refused: the result of [execute_market_order] is dropped and the status
    is written all the same. *)
Lemma limit_step_failed_execution P now i o p cp msg :
  o_kind o = "limit" -> o_status o = "pending" ->
  P !! o_symbol o = Some cp -> triggers o cp = true ->
  execute_market_order now o p = (p, (false, msg)) ->
  limit_step P now i o p = (mark_filled i p, NoError).
Proof.
  intros Hk Hs HP Ht He.
  rewrite (limit_step_triggers P now i o p cp Hk Hs HP), Ht, He.
  reflexivity.
Qed.

(** C4, the code at the failing input: a limit buy of 10 AAPL at 50 with
    100 in cash, and a tick at price 40.  [buy_stock] answers [False]
    (not enough money), no transaction is recorded, cash and holdings are
    kept, and the order is nevertheless marked ["filled"]. *)
Theorem failed_limit_order_marked_filled :
  let p := fst (place_order t0 "buy" "AAPL" 10 50 "limit"
                  (Portfolio_init 100)) in
  let o := new_order t0 "buy" "AAPL" 10 50 "limit" in
  let r := check_limit_orders {[ "AAPL" := 40%Q ]} (fun _ => t0) p in
  execute_market_order t0 o p = (p, (false, msg_no_money))
  /\ transaction_history (fst r) = []
  /\ cash (fst r) = cash p
  /\ holdings (fst r) = holdings p
  /\ pending_orders (fst r) = [set_status "filled" o].
Proof. cbv zeta. repeat split; reflexivity. Qed.

(** ** Placing orders *)

(** C5, as it is stated, fails: [place_order] with kind ["market"] executes
    nothing.  The order sits in the list with status ["pending"], and cash,
    holdings and log are those of the fresh portfolio. *)
Lemma market_order_left_pending :
  let r := place_order t0 "buy" "AAPL" 10 100 "market"
             (Portfolio_init default_cash) in
  o_kind (snd r) = "market"
  /\ o_status (snd r) = "pending"
  /\ pending_orders (fst r) = [snd r]
  /\ cash (fst r) = default_cash
  /\ holdings (fst r) = ∅
  /\ transaction_history (fst r) = [].
Proof. cbv zeta. repeat split; reflexivity. Qed.

(** C5 (as amended).  [place_order] with kind ["market"] does not execute
    the order: it appends it to the order list with status ["pending"] and
    nothing filled, returns it, and keeps cash, holdings and log.  The
    order then stays as it is: the loop body of [check_limit_orders] skips
    every order whose kind is not ["limit"]. *)
Theorem place_market_order_only_queues (now : DateTime)
    (side symbol : string) (shares : Z) (price : Q) (p : Portfolio) :
  let r := place_order now side symbol shares price "market" p in
  pending_orders (fst r) = pending_orders p ++ [snd r]
  /\ o_status (snd r) = "pending"
  /\ o_filled (snd r) = 0
  /\ o_kind (snd r) = "market"
  /\ cash (fst r) = cash p
  /\ holdings (fst r) = holdings p
  /\ transaction_history (fst r) = transaction_history p
  /\ (forall P clk i q, limit_step P clk i (snd r) q = (q, NoError)).
Proof.
  cbv zeta. repeat split; try reflexivity.
Qed.

(** C6, as it is stated, fails: [place_order] checks neither the share
    count nor the price.  An order for 0 shares at price -1 is appended to
    the order list. *)
Lemma non_positive_order_is_queued :
  let r := place_order t0 "buy" "AAPL" 0 (-1) "limit"
             (Portfolio_init default_cash) in
  pending_orders (fst r) = [snd r]
  /\ o_shares (snd r) = 0
  /\ (o_price (snd r) < 0)%Q
  /\ o_status (snd r) = "pending".
Proof. cbv zeta. repeat split; reflexivity. Qed.

(** C6 (as amended).  [place_order] validates nothing: for every side,
    symbol, kind, share count and price, positive or not, the order list
    grows by exactly the new order, which carries the share count and the
    price it was given. *)
Theorem place_order_appends_unchecked (now : DateTime)
    (side symbol kind : string) (shares : Z) (price : Q) (p : Portfolio) :
  let r := place_order now side symbol shares price kind p in
  pending_orders (fst r) = pending_orders p ++ [snd r]
  /\ snd r = new_order now side symbol shares price kind
  /\ o_shares (snd r) = shares
  /\ o_price (snd r) = price
  /\ length (pending_orders (fst r)) = S (length (pending_orders p)).
Proof.
  cbv zeta. repeat split; try reflexivity.
  cbn. rewrite length_app. cbn. lia.
Qed.

(** ** The RSI series *)

Section RSI.
Local Open Scope Q_scope.

Lemma diff_from_fin prev closes :
  Forall fin_or_nan (diff_from (Fin prev) (Series closes)).
Proof.
  revert prev. induction closes as [|c rest IH]; intros prev; cbn.
  - constructor.
  - constructor; [right; eexists; reflexivity | apply IH].
Qed.

Lemma diff_fin closes : Forall fin_or_nan (diff (Series closes)).
Proof.
  destruct closes as [|c rest]; cbn; [constructor|].
  constructor; [left; reflexivity | apply diff_from_fin].
Qed.

Lemma where_gain_nonneg s :
  Forall fin_or_nan s -> Forall nonneg_fin (where_ fgt0 s).
Proof.
  intros H. unfold where_. apply Forall_fmap.
  eapply Forall_impl; [exact H|]. intros x [-> | [a ->]]; cbn.
  - exists 0. split; [reflexivity | apply Qle_refl].
  - destruct (Qgt_bool a 0) eqn:E.
    + exists a. split; [reflexivity|].
      apply Qgt_bool_true in E. apply Qlt_le_weak. exact E.
    + exists 0. split; [reflexivity | apply Qle_refl].
Qed.

Lemma where_loss_nonneg s :
  Forall fin_or_nan s -> Forall nonneg_fin (map fneg (where_ flt0 s)).
Proof.
  intros H. unfold where_. rewrite map_map. apply Forall_fmap.
  eapply Forall_impl; [exact H|]. intros x [-> | [a ->]]; cbn.
  - exists (- 0). split; [reflexivity | apply Qle_refl].
  - unfold Qlt_bool. destruct (Qgt_bool 0 a) eqn:E; cbn.
    + exists (- a). split; [reflexivity|].
      apply Qgt_bool_true in E. lra.
    + exists (- 0). split; [reflexivity | apply Qle_refl].
Qed.

Lemma fsum_nonneg l : Forall nonneg_fin l -> nonneg_fin (fsum l).
Proof.
  induction 1 as [|x l [a [-> Ha]] _ [b [Hb Hb0]]]; cbn.
  - exists 0. split; [reflexivity | apply Qle_refl].
  - unfold fsum in Hb. rewrite Hb. cbn. exists (a + b).
    split; [reflexivity | lra].
Qed.

(** From position [w - 1] on, the rolling mean of a series of non-negative
    finite values is a non-negative finite value. *)
Lemma rolling_mean_nonneg (w : nat) (s : list fval) (i : nat) (x : fval) :
  (0 < w)%nat -> (w <= S i)%nat -> Forall nonneg_fin s ->
  rolling_mean w s !! i = Some x -> nonneg_fin x.
Proof.
  intros Hw Hi Hs Hx. unfold rolling_mean in Hx.
  rewrite list_lookup_fmap in Hx.
  destruct (seq 0 (length s) !! i) as [j|] eqn:Ej; [|discriminate].
  apply lookup_seq in Ej as [-> Hlt]. cbn in Hx. injection Hx as <-.
  unfold window_mean.
  assert (Hlen : length (take (S i) s) = S i)
    by (rewrite length_take; lia).
  rewrite Hlen.
  destruct (Nat.ltb_spec (S i) w) as [Hc|_]; [lia|].
  destruct (fsum_nonneg (drop (S i - w) (take (S i) s))) as [a [Ha Ha0]].
  { apply Forall_drop, Forall_take, Hs. }
  rewrite Ha. cbn.
  assert (Hpos : 0 < inject_Z (Z.of_nat w)).
  { unfold Qlt. cbn. lia. }
  destruct (Qeq_bool (inject_Z (Z.of_nat w)) 0) eqn:E.
  { apply Qeq_bool_iff in E. rewrite E in Hpos.
    exfalso. exact (Qlt_irrefl _ Hpos). }
  exists (a / inject_Z (Z.of_nat w)). split; [reflexivity|].
  apply Qle_shift_div_l; [exact Hpos | lra].
Qed.

(** The RSI of a ratio of two non-negative finite values. *)
Lemma rsi_of_rs_cases (g l : Q) :
  0 <= g -> 0 <= l ->
  (0 < l -> exists q, rsi_of_rs (fdiv (Fin g) (Fin l)) = Fin q
                      /\ 0 <= q /\ q <= 100)
  /\ (l == 0 -> 0 < g -> rsi_of_rs (fdiv (Fin g) (Fin l)) = Fin 100)
  /\ (l == 0 -> g == 0 -> rsi_of_rs (fdiv (Fin g) (Fin l)) = NaN).
Proof.
  intros Hg Hl. split; [|split].
  - intros Hpos. cbn.
    destruct (Qeq_bool l 0) eqn:E.
    { apply Qeq_bool_iff in E. rewrite E in Hpos.
      exfalso. exact (Qlt_irrefl _ Hpos). }
    unfold rsi_of_rs. cbn.
    assert (Hx : 0 <= g / l) by (apply Qle_shift_div_l; [exact Hpos | lra]).
    assert (Hd : 0 < 1 + g / l) by lra.
    destruct (Qeq_bool (1 + g / l) 0) eqn:E1.
    { apply Qeq_bool_iff in E1. rewrite E1 in Hd.
      exfalso. exact (Qlt_irrefl _ Hd). }
    eexists. split; [reflexivity|].
    assert (H0 : 0 <= 100 / (1 + g / l))
      by (apply Qle_shift_div_l; [exact Hd | lra]).
    assert (H1 : 100 / (1 + g / l) <= 100)
      by (apply Qle_shift_div_r; [exact Hd | lra]).
    split; lra.
  - intros Hz Hpos. cbn.
    apply Qeq_bool_iff in Hz. rewrite Hz.
    destruct (Qeq_bool g 0) eqn:E.
    { apply Qeq_bool_iff in E. rewrite E in Hpos.
      exfalso. exact (Qlt_irrefl _ Hpos). }
    apply Qgt_bool_true in Hpos. rewrite Hpos. reflexivity.
  - intros Hz Hgz. cbn.
    apply Qeq_bool_iff in Hz. apply Qeq_bool_iff in Hgz.
    rewrite Hz, Hgz. reflexivity.
Qed.

Lemma rolling_mean_lookup (w : nat) (s : list fval) (i : nat) (x : fval) :
  rolling_mean w s !! i = Some x ->
  (i < length s)%nat /\ x = window_mean w (take (S i) s).
Proof.
  unfold rolling_mean. rewrite list_lookup_fmap. intros Hx.
  destruct (seq 0 (length s) !! i) as [j|] eqn:Ej; [|discriminate].
  apply lookup_seq in Ej as [-> Hlt]. cbn in Hx. injection Hx as <-.
  split; [exact Hlt | reflexivity].
Qed.

(** Below position 13 the window is not full and the entry is NaN. *)
Lemma rsi_unpopulated (closes : list Q) (i : nat) (r : fval) :
  (i < 13)%nat -> rsi_series (Series closes) !! i = Some r -> r = NaN.
Proof.
  intros Hi Hr. unfold rsi_series in Hr. rewrite list_lookup_fmap in Hr.
  destruct (rs_series (Series closes) !! i) as [rs|] eqn:Ers; [|discriminate].
  cbn in Hr. injection Hr as <-.
  unfold rs_series in Ers. apply lookup_zip_with_Some in Ers
    as (g & l & -> & Hg & Hl).
  apply rolling_mean_lookup in Hg as [Hlen ->].
  unfold window_mean. rewrite length_take.
  destruct (Nat.ltb_spec (S i `min` length (where_ fgt0 (diff (Series closes)))) 14)
    as [_|Hc]; [reflexivity | lia].
Qed.

(** C7 (as amended).  After [update_indicators] on a history of at least 14
    closes, take the RSI entry [r] at a position [i >= 13].  The trailing
    averages [g] (gain) and [l] (loss) at [i] are finite and not negative,
    and
    - when [l > 0], [r] is a number in [[0,100]];
    - when [l = 0] and [g > 0], [r] is 100;
    - when [l = 0] and [g = 0] (a flat window), [r] is NaN. *)
Theorem rsi_range_or_nan (s : Stock) (i : nat) (r : fval) :
  let prices := Series (map b_close (ohlc_data s)) in
  (14 <= length (ohlc_data s))%nat -> (13 <= i)%nat ->
  ind_RSI (update_indicators s) !! i = Some r ->
  exists g l,
    gain_series prices !! i = Some (Fin g)
    /\ loss_series prices !! i = Some (Fin l)
    /\ 0 <= g /\ 0 <= l
    /\ (0 < l -> exists q, r = Fin q /\ 0 <= q /\ q <= 100)
    /\ (l == 0 -> 0 < g -> r = Fin 100)
    /\ (l == 0 -> g == 0 -> r = NaN).
Proof.
  intros prices Hlen Hi Hr.
  assert (Hrsi : rsi_series prices !! i = Some r).
  { unfold update_indicators in Hr.
    destruct (map b_close (ohlc_data s)) as [|c rest] eqn:Ec.
    - apply (f_equal length) in Ec. rewrite length_map in Ec.
      cbn in Ec. lia.
    - cbn [ind_RSI] in Hr.
      assert (Hl : length (Series (c :: rest)) = length (ohlc_data s))
        by (unfold Series; rewrite length_map, <- Ec, length_map; reflexivity).
      rewrite Hl in Hr.
      destruct (Nat.leb_spec 14 (length (ohlc_data s))) as [_|Hc]; [|lia].
      exact Hr. }
  unfold rsi_series in Hrsi. rewrite list_lookup_fmap in Hrsi.
  destruct (rs_series prices !! i) as [rs|] eqn:Ers; [|discriminate].
  cbn in Hrsi. injection Hrsi as <-.
  unfold rs_series in Ers. apply lookup_zip_with_Some in Ers
    as (x & y & -> & Hg & Hl).
  destruct (rolling_mean_nonneg 14 _ i x ltac:(lia) ltac:(lia)
              (where_gain_nonneg _ (diff_fin _)) Hg) as [g [-> Hg0]].
  destruct (rolling_mean_nonneg 14 _ i y ltac:(lia) ltac:(lia)
              (where_loss_nonneg _ (diff_fin _)) Hl) as [l [-> Hl0]].
  exists g, l. split; [exact Hg|]. split; [exact Hl|].
  split; [exact Hg0|]. split; [exact Hl0|].
  apply rsi_of_rs_cases; assumption.
Qed.

Lemma rsi_range_or_nan_witness :
  exists g l,
    gain_series (Series (map b_close (ohlc_data rising_stock))) !! 13%nat
      = Some (Fin g)
    /\ loss_series (Series (map b_close (ohlc_data rising_stock))) !! 13%nat
      = Some (Fin l)
    /\ 0 <= g /\ 0 <= l
    /\ (0 < l -> exists q, Fin 100 = Fin q /\ 0 <= q /\ q <= 100)
    /\ (l == 0 -> 0 < g -> Fin 100 = Fin 100)
    /\ (l == 0 -> g == 0 -> Fin 100 = NaN).
Proof.
  apply (rsi_range_or_nan rising_stock 13 (Fin 100)).
  - cbn. lia.
  - lia.
  - reflexivity.
Defined.

(** C7, as it is stated, fails on a flat window: with fourteen equal
    closes the trailing average loss is 0 and no trailing delta is
    negative, but the average gain is 0 as well, the ratio is [0/0], and
    the RSI entry at position 13 is NaN: it is not 100 and it is not a
    number of [[0,100]]. *)
Lemma flat_window_rsi_is_nan :
  let prices := Series (map b_close (ohlc_data flat_stock)) in
  length (ohlc_data flat_stock) = 14%nat
  /\ (exists l, loss_series prices !! 13%nat = Some (Fin l) /\ l == 0)
  /\ Forall (fun d => flt0 d = false) (diff prices)
  /\ ind_RSI (update_indicators flat_stock) !! 13%nat = Some NaN
  /\ NaN <> Fin 100
  /\ ~ (exists q, NaN = Fin q /\ 0 <= q /\ q <= 100).
Proof.
  cbv zeta. split; [reflexivity|]. split.
  { eexists. split; [vm_compute; reflexivity | reflexivity]. }
  split.
  { vm_compute. repeat constructor. }
  split; [vm_compute; reflexivity|].
  split; [discriminate|].
  intros [q [Hq _]]. discriminate.
Qed.

End RSI.

(** ** The tick *)

Lemma str_in_pending_symbols p sym :
  str_in sym (pending_symbols p) = true <-> has_pending_for p sym.
Proof.
  unfold str_in, pending_symbols, has_pending_for.
  rewrite existsb_exists. split.
  - intros [x [Hin Heq]]. apply String.eqb_eq in Heq. subst x.
    apply in_map_iff in Hin as [o [Hsym Hin]].
    apply filter_In in Hin as [Hin Hst]. apply String.eqb_eq in Hst.
    exists o. auto.
  - intros [o [Hin [Hst Hsym]]]. exists sym. split.
    + apply in_map_iff. exists o. split; [exact Hsym|].
      apply filter_In. split; [exact Hin|]. apply String.eqb_eq. exact Hst.
    + apply String.eqb_refl.
Qed.

Lemma advance_stocks_lookup draws p items : forall i0 j k s res,
  advance_stocks draws p i0 items = (res, NoError) ->
  items !! j = Some (k, s) ->
  (str_in (symbol s) (pending_symbols p) = true -> res !! j = Some (k, s))
  /\ (str_in (symbol s) (pending_symbols p) = false ->
      exists s' b,
        update_price (d_now (draws (i0 + j)%nat)) (d_now2 (draws (i0 + j)%nat))
          (d_rnd (draws (i0 + j)%nat)) 0 s = Some (s', b)
        /\ res !! j = Some (k, s')).
Proof.
  induction items as [|[k0 s0] rest IH]; intros i0 j k s res Hrun Hj;
    [discriminate|].
  cbn [advance_stocks] in Hrun.
  destruct (str_in (symbol s0) (pending_symbols p)) eqn:Ein; cbn [negb] in Hrun.
  - injection Hrun as <- Herr.
    destruct j as [|j]; cbn in Hj |- *.
    + injection Hj as -> ->. rewrite Ein. split; [reflexivity | discriminate].
    + destruct (advance_stocks draws p (S i0) rest) as [res' e] eqn:Er.
      cbn in Herr |- *. subst e.
      replace (i0 + S j)%nat with (S i0 + j)%nat by lia.
      exact (IH (S i0) j k s res' Er Hj).
  - destruct (update_price _ _ _ 0 s0) as [[s0' b0]|] eqn:Eu; [|discriminate].
    injection Hrun as <- Herr.
    destruct j as [|j]; cbn in Hj |- *.
    + injection Hj as -> ->. rewrite Ein. split; [discriminate|].
      intros _. exists s0', b0. rewrite Nat.add_0_r. auto.
    + destruct (advance_stocks draws p (S i0) rest) as [res' e] eqn:Er.
      cbn in Herr |- *. subst e.
      replace (i0 + S j)%nat with (S i0 + j)%nat by lia.
      exact (IH (S i0) j k s res' Er Hj).
Qed.

(** C8 (as amended).  In a tick that ends without error, the stock at
    position [i] is left as it is when the order list, after the
    limit-order pass of this tick, holds an order with status ["pending"]
    for that stock's own symbol; otherwise [update_price] is called on it,
    whatever pending orders there are for other symbols.  So a price that
    changed in the tick belongs to a symbol without a pending order of its
    own. *)
Theorem tick_freezes_own_symbol_only (draws : nat -> Draw)
    (clock : nat -> DateTime) (w w' : TradingWindow) (i : nat) (k : string)
    (s : Stock) :
  update_prices draws clock w = (w', NoError) ->
  stocks w !! i = Some (k, s) ->
  portfolio w'
    = fst (check_limit_orders (stock_prices_of (stocks w)) clock (portfolio w))
  /\ (has_pending_for (portfolio w') (symbol s) ->
      stocks w' !! i = Some (k, s))
  /\ (~ has_pending_for (portfolio w') (symbol s) ->
      exists s' b,
        update_price (d_now (draws i)) (d_now2 (draws i)) (d_rnd (draws i))
          0 s = Some (s', b)
        /\ stocks w' !! i = Some (k, s'))
  /\ (forall s', stocks w' !! i = Some (k, s') ->
      price_history s' <> price_history s ->
      ~ has_pending_for (portfolio w') (symbol s)).
Proof.
  intros Hrun Hi. unfold update_prices in Hrun.
  destruct (check_limit_orders _ clock (portfolio w)) as [p' e] eqn:Ec.
  destruct e; try (injection Hrun as _ Hrun; discriminate).
  destruct (advance_stocks draws p' 0 (stocks w)) as [res e] eqn:Ea.
  cbn in Hrun. injection Hrun as <- ->. cbn [portfolio stocks fst].
  destruct (advance_stocks_lookup draws p' (stocks w) 0%nat i k s res Ea Hi)
    as [Hfrozen Hadv].
  split; [reflexivity|]. split; [|split].
  - intros Hp. apply Hfrozen, str_in_pending_symbols, Hp.
  - intros Hp. apply Hadv.
    destruct (str_in (symbol s) (pending_symbols p')) eqn:E; [|reflexivity].
    exfalso. apply Hp, str_in_pending_symbols, E.
  - intros s' Hs' Hne Hp.
    rewrite (Hfrozen (proj2 (str_in_pending_symbols _ _) Hp)) in Hs'.
    injection Hs' as <-. apply Hne. reflexivity.
Qed.

Lemma tick_freezes_own_symbol_only_witness :
  let w' := fst (update_prices (fun _ => draw2) (fun _ => t2)
                   two_stock_window) in
  has_pending_for (portfolio w') (symbol aapl)
  /\ stocks w' !! 0%nat = Some ("AAPL", aapl).
Proof.
  intros w'.
  assert (Hp : has_pending_for (portfolio w') (symbol aapl)).
  { eexists. split; [left; reflexivity|]. split; reflexivity. }
  split; [exact Hp|]. revert Hp.
  assert (Hrun : update_prices (fun _ => draw2) (fun _ => t2) two_stock_window
                 = (w', NoError)) by (vm_compute; reflexivity).
  assert (Hi : stocks two_stock_window !! 0%nat = Some ("AAPL", aapl))
    by reflexivity.
  exact (proj1 (proj2 (tick_freezes_own_symbol_only (fun _ => draw2)
                         (fun _ => t2) two_stock_window w' 0%nat "AAPL" aapl
                         Hrun Hi))).
Defined.

(** C8, as it is stated, fails: with a pending limit buy for AAPL in the
    book (the price 100 is above its limit 50, so it stays pending), the
    tick leaves AAPL alone but advances MSFT, whose price history gets a
    second entry, 100.5. *)
Lemma pending_order_freezes_only_its_symbol :
  let r := update_prices (fun _ => draw2) (fun _ => t2) two_stock_window in
  snd r = NoError
  /\ has_pending_for (portfolio (fst r)) "AAPL"
  /\ stocks (fst r) !! 0%nat = Some ("AAPL", aapl)
  /\ exists s',
       stocks (fst r) !! 1%nat = Some ("MSFT", s')
       /\ price_history msft = [100%Q]
       /\ length (price_history s') = 2%nat
       /\ (get_current_price s' == 201 # 2)%Q.
Proof.
  cbv zeta. split; [vm_compute; reflexivity|]. split.
  { eexists. split; [left; reflexivity|]. split; reflexivity. }
  split; [vm_compute; reflexivity|].
  eexists. split; [vm_compute; reflexivity|].
  split; [reflexivity|]. split; [reflexivity|]. vm_compute. reflexivity.
Qed.

(** ** Timestamps as text *)

Lemma digits_acc_app (w : nat) : forall (n : Z) (t1 t2 : string),
  (digits_acc w n t1 ++ t2)%string = digits_acc w n (t1 ++ t2)%string.
Proof.
  induction w as [|w IH]; intros n t1 t2; cbn [digits_acc]; [reflexivity|].
  rewrite IH. reflexivity.
Qed.

Lemma pad_app (w : nat) (n : Z) (tail : string) :
  (pad w n ++ tail)%string = digits_acc w n tail.
Proof. unfold pad. rewrite digits_acc_app. reflexivity. Qed.

Lemma digit_val_char (d : Z) :
  0 <= d <= 9 -> digit_val (digit_char d) = Some d.
Proof.
  intros H.
  assert (Hd : d = 0 \/ d = 1 \/ d = 2 \/ d = 3 \/ d = 4 \/ d = 5 \/ d = 6
               \/ d = 7 \/ d = 8 \/ d = 9) by lia.
  repeat (destruct Hd as [-> | Hd]; [reflexivity|]). subst d. reflexivity.
Qed.

(** Reading [w + 1] digits is reading [w] digits and one more. *)
Lemma parse_digits_last (w : nat) : forall (acc : Z) (s : string),
  parse_digits (S w) acc s =
    match parse_digits w acc s with
    | Some (a, String c rest) =>
        match digit_val c with
        | Some d => Some (a * 10 + d, rest)
        | None => None
        end
    | _ => None
    end.
Proof.
  induction w as [|w IH]; intros acc s.
  - cbn. destruct s as [|c rest]; [reflexivity|].
    destruct (digit_val c); reflexivity.
  - change (parse_digits (S (S w)) acc s) with
      (match s with
       | String c rest =>
           match digit_val c with
           | Some d => parse_digits (S w) (acc * 10 + d) rest
           | None => None
           end
       | EmptyString => None
       end).
    destruct s as [|c rest]; [reflexivity|]. cbn [parse_digits].
    destruct (digit_val c) as [d|]; [|reflexivity].
    rewrite <- IH. reflexivity.
Qed.

Lemma parse_digits_acc (w : nat) : forall (n acc : Z) (tail : string),
  0 <= n < 10 ^ Z.of_nat w ->
  parse_digits w acc (digits_acc w n tail)
    = Some (acc * 10 ^ Z.of_nat w + n, tail).
Proof.
  induction w as [|w IH]; intros n acc tail Hn.
  - cbn in *. f_equal. f_equal. lia.
  - rewrite Nat2Z.inj_succ, Z.pow_succ_r in * by lia.
    rewrite parse_digits_last. cbn [digits_acc].
    rewrite IH.
    2:{ split; [apply Z.div_pos; lia|].
        apply Z.div_lt_upper_bound; lia. }
    rewrite digit_val_char
      by (pose proof (Z.mod_pos_bound n 10 ltac:(lia)); lia).
    f_equal. f_equal.
    pose proof (Z.div_mod n 10 ltac:(lia)). lia.
Qed.

Lemma parse_pad (w : nat) (n : Z) (tail : string) :
  0 <= n < 10 ^ Z.of_nat w ->
  parse_digits w 0 (pad w n ++ tail) = Some (n, tail).
Proof.
  intros Hn. rewrite pad_app, parse_digits_acc by exact Hn.
  reflexivity.
Qed.

Lemma append_char (c : ascii) (rest : string) :
  (String c "" ++ rest)%string = String c rest.
Proof. reflexivity. Qed.

Lemma expect_char (c : ascii) (rest : string) :
  expect c (String c "" ++ rest) = Some rest.
Proof. simpl. rewrite Ascii.eqb_refl. reflexivity. Qed.

Lemma skip_char_char (c : ascii) (rest : string) :
  skip_char (String c "" ++ rest) = Some rest.
Proof. reflexivity. Qed.

Lemma days_in_month_le (y m : Z) : days_in_month y m <= 31.
Proof.
  unfold days_in_month.
  destruct (m =? 2); [destruct (is_leap y); lia|].
  destruct (_ || _); lia.
Qed.

(** [fromisoformat] reads back what [isoformat] wrote. *)
Lemma fromisoformat_isoformat (d : DateTime) :
  dt_valid d = true -> fromisoformat (isoformat d) = Some d.
Proof.
  intros Hv. pose proof Hv as Hv'. unfold dt_valid in Hv'.
  repeat (apply andb_prop in Hv' as [Hv' ?]).
  repeat match goal with
         | H : (_ <=? _) = true |- _ => apply Z.leb_le in H
         end.
  destruct d as [y m dd h mi sec us]. cbn [dt_year dt_month dt_day dt_hour
    dt_minute dt_second dt_microsecond] in *.
  pose proof (days_in_month_le y m).
  unfold fromisoformat, isoformat.
  cbn [dt_year dt_month dt_day dt_hour dt_minute dt_second dt_microsecond].
  rewrite parse_pad by lia. cbn [mbind option_bind]. rewrite expect_char.
  cbn [mbind option_bind].
  rewrite parse_pad by lia. cbn [mbind option_bind]. rewrite expect_char.
  cbn [mbind option_bind].
  rewrite parse_pad by lia. cbn [mbind option_bind]. rewrite skip_char_char.
  cbn [mbind option_bind].
  rewrite parse_pad by lia. cbn [mbind option_bind]. rewrite expect_char.
  cbn [mbind option_bind].
  rewrite parse_pad by lia. cbn [mbind option_bind]. rewrite expect_char.
  cbn [mbind option_bind].
  rewrite parse_pad by lia. cbn [mbind option_bind].
  destruct (Z.eqb_spec us 0) as [->|Hne].
  - cbn [mbind option_bind]. rewrite Hv. reflexivity.
  - rewrite append_char. cbn [mbind option_bind].
    rewrite <- (append_char "." (pad 6 us)), expect_char.
    cbn [mbind option_bind].
    unfold pad. rewrite parse_digits_acc by lia.
    cbn [mbind option_bind]. rewrite Z.mul_0_l, Z.add_0_l, Hv. reflexivity.
Qed.

(** ** Saving and loading *)

Lemma mapM_map_inverse {A B} (enc : A -> B) (dec : B -> option A)
    (l : list A) :
  Forall (fun x => dec (enc x) = Some x) l -> mapM dec (map enc l) = Some l.
Proof.
  induction 1 as [|x l Hx _ IH]; [reflexivity|].
  cbn. rewrite Hx. cbn. rewrite IH. reflexivity.
Qed.

Lemma dict_of_pairs_list_to_map {A} (pairs : list (string * A)) :
  dict_of_pairs pairs = list_to_map (reverse pairs).
Proof.
  unfold dict_of_pairs.
  induction pairs as [|kv l IH] using rev_ind; [reflexivity|].
  rewrite foldl_snoc, reverse_snoc, IH. reflexivity.
Qed.

Lemma dict_of_pairs_map_to_list {A} (m : gmap string A) :
  dict_of_pairs (map_to_list m) = m.
Proof.
  rewrite dict_of_pairs_list_to_map.
  rewrite <- (list_to_map_to_list m) at 2.
  apply list_to_map_proper.
  - rewrite fmap_reverse, reverse_Permutation.
    apply NoDup_fst_map_to_list.
  - apply reverse_Permutation.
Qed.

Lemma holdings_roundtrip (m : gmap string Z) :
  as_holdings
    (JObject (map (fun kv => (fst kv, JInt (snd kv))) (map_to_list m)))
  = Some m.
Proof.
  unfold as_holdings.
  rewrite (mapM_map_inverse (fun kv : string * Z => (fst kv, JInt (snd kv)))).
  - cbn. rewrite dict_of_pairs_map_to_list. reflexivity.
  - apply Forall_forall. intros [k v] _. reflexivity.
Qed.

Lemma transaction_roundtrip (t : Transaction) :
  dt_valid (t_time t) = true ->
  transaction_of_json (transaction_to_json t) = Some t.
Proof.
  intros Hv. destruct t as [ty sy sh pr to ti ot]. cbn in Hv.
  unfold transaction_of_json, transaction_to_json.
  simpl jget. cbn [mbind option_bind as_string as_int as_float fmap option_fmap option_map snd].
  rewrite (fromisoformat_isoformat _ Hv). reflexivity.
Qed.

Lemma order_roundtrip (o : Order) :
  dt_valid (o_time o) = true ->
  order_of_json (order_to_json o) = Some o.
Proof.
  intros Hv. destruct o as [ty sy sh pr ki ti fi st]. cbn in Hv.
  unfold order_of_json, order_to_json.
  simpl jget. cbn [mbind option_bind as_string as_int as_float fmap option_fmap option_map snd].
  rewrite (fromisoformat_isoformat _ Hv). reflexivity.
Qed.

(** C9. A portfolio written with [save_to_file] and read back with
    [load_from_file] from the same file is the portfolio that was written:
    the same cash, the same holdings, the same transaction list and the
    same order list, every record with the timestamp it had.  The
    timestamps are [datetime] objects, so they are valid dates and times;
    the portfolio that does the loading may be any. *)
Theorem save_load_round_trip (filename : string) (fs : gmap string json)
    (p p0 : Portfolio) :
  Forall (fun t => dt_valid (t_time t) = true) (transaction_history p) ->
  Forall (fun o => dt_valid (o_time o) = true) (pending_orders p) ->
  load_from_file filename (save_to_file filename p fs) p0 = Some p.
Proof.
  intros Ht Ho. unfold load_from_file, save_to_file.
  rewrite lookup_insert_eq. unfold portfolio_to_json.
  simpl jget.
  cbn [mbind option_bind as_float as_array fmap option_fmap option_map snd].
  rewrite holdings_roundtrip. cbn [mbind option_bind].
  rewrite (mapM_map_inverse transaction_to_json transaction_of_json).
  2:{ eapply Forall_impl; [exact Ht|]. intros t. apply transaction_roundtrip. }
  cbn [mbind option_bind].
  rewrite (mapM_map_inverse order_to_json order_of_json).
  2:{ eapply Forall_impl; [exact Ho|]. intros o. apply order_roundtrip. }
  cbn [mbind option_bind]. destruct p. reflexivity.
Qed.

Lemma save_load_round_trip_witness :
  load_from_file "portfolio.json"
    (save_to_file "portfolio.json" traded_portfolio ∅)
    (Portfolio_init default_cash)
  = Some traded_portfolio.
Proof.
  apply (save_load_round_trip "portfolio.json" ∅ traded_portfolio
           (Portfolio_init default_cash)).
  - repeat constructor.
  - repeat constructor.
Defined.

(** ** The order type of the logged transactions *)

Lemma appends_market_refl p : appends_market p p.
Proof. exists []. rewrite app_nil_r. split; [reflexivity | constructor]. Qed.

Lemma appends_market_trans p q r :
  appends_market p q -> appends_market q r -> appends_market p r.
Proof.
  intros [l1 [H1 F1]] [l2 [H2 F2]]. exists (l1 ++ l2).
  rewrite H2, H1, app_assoc. split; [reflexivity|].
  apply Forall_app. split; assumption.
Qed.

Lemma buy_stock_appends_market now S n price p :
  appends_market p (fst (buy_stock now S n price p)).
Proof.
  unfold buy_stock. destruct (Qgt_bool _ _); [apply appends_market_refl|].
  eexists. split; [reflexivity|]. repeat constructor.
Qed.

Lemma sell_stock_appends_market now S n price p :
  appends_market p (fst (sell_stock now S n price p)).
Proof.
  unfold sell_stock.
  destruct (holdings p !! S); [|apply appends_market_refl].
  destruct (_ <? _); [apply appends_market_refl|].
  eexists. split; [reflexivity|]. repeat constructor.
Qed.

Lemma execute_market_order_appends_market now o p :
  appends_market p (fst (execute_market_order now o p)).
Proof.
  unfold execute_market_order. destruct (String.eqb _ _);
    [apply buy_stock_appends_market | apply sell_stock_appends_market].
Qed.

Lemma limit_step_appends_market P now i o p :
  appends_market p (fst (limit_step P now i o p)).
Proof.
  unfold limit_step.
  destruct (_ && _); [|apply appends_market_refl].
  destruct (P !! o_symbol o); [|apply appends_market_refl].
  destruct (_ && _); [|destruct (_ && _); [|apply appends_market_refl]];
    apply (execute_market_order_appends_market now o p).
Qed.

Lemma check_loop_appends_market P clock snapshot : forall i p,
  appends_market p (fst (check_loop P clock i snapshot p)).
Proof.
  induction snapshot as [|o rest IH]; intros i p; cbn [check_loop].
  - apply appends_market_refl.
  - pose proof (limit_step_appends_market P (clock i) i o p) as Hstep.
    destruct (limit_step P (clock i) i o p) as [p' [|k|]]; cbn [fst] in *;
      [|exact Hstep..].
    eapply appends_market_trans; [exact Hstep | apply IH].
Qed.

Lemma appends_market_Forall p p' :
  appends_market p p' ->
  Forall is_market (transaction_history p) ->
  Forall is_market (transaction_history p').
Proof.
  intros [l [-> Hl]] Hp. apply Forall_app. split; assumption.
Qed.

Lemma cancel_order_history row p :
  transaction_history (cancel_order row p) = transaction_history p.
Proof.
  unfold cancel_order. destruct (_ && _); [|reflexivity].
  destruct (pending_orders p !! Z.to_nat row); [|reflexivity].
  destruct (String.eqb _ _); reflexivity.
Qed.

(** Reading a saved transaction back keeps its order type, whatever the
    timestamp turns into. *)
Lemma transaction_of_json_order_type t t' :
  transaction_of_json (transaction_to_json t) = Some t' ->
  t_order_type t' = t_order_type t.
Proof.
  unfold transaction_of_json, transaction_to_json. simpl jget.
  cbn [mbind option_bind as_string as_int as_float fmap option_fmap
       option_map snd].
  destruct (fromisoformat _); [|discriminate].
  cbn [mbind option_bind]. intros H. injection H as <-. reflexivity.
Qed.

Lemma load_saved_history filename fs p q p' :
  fs !! filename = Some (portfolio_to_json q) ->
  load_from_file filename fs p = Some p' ->
  Forall is_market (transaction_history q) ->
  Forall is_market (transaction_history p').
Proof.
  intros Hf Hl Hq. unfold load_from_file in Hl. rewrite Hf in Hl.
  unfold portfolio_to_json in Hl. simpl jget in Hl.
  cbn [mbind option_bind as_float as_array fmap option_fmap option_map snd] in Hl.
  rewrite holdings_roundtrip in Hl. cbn [mbind option_bind] in Hl.
  destruct (mapM transaction_of_json
              (map transaction_to_json (transaction_history q)))
    as [history|] eqn:Eh; [|discriminate].
  cbn [mbind option_bind] in Hl.
  destruct (mapM order_of_json _) as [orders|]; [|discriminate].
  cbn [mbind option_bind] in Hl. injection Hl as <-. cbn.
  apply mapM_Some_1 in Eh. clear Hf.
  revert history Eh. induction Hq as [|t l Ht _ IH]; intros history Eh.
  - inversion Eh. constructor.
  - cbn in Eh. inversion Eh as [|x y l1 l2 Hxy Hrest]; subst.
    constructor; [|apply IH; exact Hrest].
    unfold is_market in *.
    rewrite (transaction_of_json_order_type _ _ Hxy). exact Ht.
Qed.

(** C10. Every record that [buy_stock], [sell_stock] or the limit-order
    pass [check_limit_orders] appends to the log has order type
    ["market"], and in every reachable portfolio every record of the log
    has order type ["market"]; none has ["limit"]. *)
Theorem transactions_are_market :
  (forall now S n price p,
      appends_market p (fst (buy_stock now S n price p)))
  /\ (forall now S n price p,
      appends_market p (fst (sell_stock now S n price p)))
  /\ (forall P clock p,
      appends_market p (fst (check_limit_orders P clock p)))
  /\ (forall p, reachable p ->
      Forall (fun t => t_order_type t = "market" /\ t_order_type t <> "limit")
        (transaction_history p)).
Proof.
  split; [exact buy_stock_appends_market|].
  split; [exact sell_stock_appends_market|].
  split; [intros P clock p; apply check_loop_appends_market|].
  intros p Hr.
  assert (H : Forall is_market (transaction_history p)).
  { induction Hr as [c | now side sym sh pr kind p _ IH | now sym sh pr p _ IH
                     | now sym sh pr p _ IH | now o p _ IH | P clock p _ IH
                     | row p _ IH | filename fs p q p' _ _ _ IHq Hf Hl].
    - constructor.
    - exact IH.
    - exact (appends_market_Forall _ _ (buy_stock_appends_market _ _ _ _ _) IH).
    - exact (appends_market_Forall _ _ (sell_stock_appends_market _ _ _ _ _) IH).
    - exact (appends_market_Forall _ _
               (execute_market_order_appends_market _ _ _) IH).
    - exact (appends_market_Forall _ _
               (check_loop_appends_market _ _ _ _ _) IH).
    - rewrite cancel_order_history. exact IH.
    - exact (load_saved_history _ _ _ _ _ Hf Hl IHq). }
  eapply Forall_impl; [exact H|]. intros t Ht. unfold is_market in Ht.
  split; [exact Ht|]. rewrite Ht. discriminate.
Qed.

Lemma transactions_are_market_witness :
  reachable traded_portfolio
  /\ Forall (fun t => t_order_type t = "market" /\ t_order_type t <> "limit")
       (transaction_history traded_portfolio).
Proof.
  assert (H : reachable traded_portfolio).
  { unfold traded_portfolio.
    apply reach_sell, reach_place, reach_buy, reach_init. }
  split; [exact H|].
  exact (proj2 (proj2 (proj2 transactions_are_market)) traded_portfolio H).
Defined.

(** ** Selling, and the ledger as a whole *)

Lemma sell_stock_ok now S n price p held :
  holdings p !! S = Some held -> n <= held ->
  sell_stock now S n price p =
    ({| cash := (cash p + inject_Z n * price)%Q;
        holdings :=
          if held - n =? 0 then delete S (holdings p)
          else <[S := held - n]> (holdings p);
        transaction_history :=
          transaction_history p ++
            [ {| t_type := "sell"; t_symbol := S; t_shares := n;
                 t_price := price; t_total := (inject_Z n * price)%Q;
                 t_time := now; t_order_type := "market" |} ];
        pending_orders := pending_orders p |},
     (true, msg_sold)).
Proof.
  intros H Hle. unfold sell_stock. rewrite H.
  destruct (Z.ltb_spec held n) as [Hc|_]; [lia|]. reflexivity.
Qed.

(** X1. A sale of [n] shares of a symbol of which [held >= n] are held
    succeeds: the cash goes up by exactly [n*p], the holding becomes
    [held - n] and is removed from the dict when that is zero, the other
    holdings and the order list are kept, and one sell record with total
    [n*p] is appended. *)
Theorem sell_stock_sufficient_shares (now : DateTime) (S : string) (n : Z)
    (price : Q) (p : Portfolio) (held : Z) :
  holdings p !! S = Some held -> n <= held ->
  let r := sell_stock now S n price p in
  snd r = (true, msg_sold)
  /\ cash (fst r) = (cash p + inject_Z n * price)%Q
  /\ holdings (fst r) !! S = (if held =? n then None else Some (held - n))
  /\ (forall S', S' <> S -> holdings (fst r) !! S' = holdings p !! S')
  /\ pending_orders (fst r) = pending_orders p
  /\ exists t,
       transaction_history (fst r) = transaction_history p ++ [t]
       /\ t_total t = (inject_Z n * price)%Q
       /\ t_type t = "sell" /\ t_symbol t = S /\ t_shares t = n
       /\ t_price t = price.
Proof.
  intros H Hle r. subst r. rewrite (sell_stock_ok now S n price p held H Hle).
  cbn. split; [reflexivity|]. split; [reflexivity|].
  split; [|split; [|split; [reflexivity|]]].
  - destruct (Z.eqb_spec held n) as [->|Hne].
    + rewrite Z.sub_diag. cbn. apply lookup_delete_eq.
    + destruct (Z.eqb_spec (held - n) 0) as [Hc|_]; [lia|].
      apply lookup_insert_eq.
  - intros S' Hne. destruct (held - n =? 0).
    + rewrite lookup_delete_ne; congruence.
    + rewrite lookup_insert_ne; congruence.
  - eexists. split; [reflexivity|]. cbn. repeat split.
Qed.

Lemma sell_stock_sufficient_shares_witness :
  cash (fst (sell_stock t0 "AAPL" 5 20 small_portfolio))
    = (100 + inject_Z 5 * 20)%Q
  /\ holdings (fst (sell_stock t0 "AAPL" 5 20 small_portfolio)) !! "AAPL"
     = None.
Proof.
  assert (H : holdings small_portfolio !! "AAPL" = Some 5) by reflexivity.
  pose proof (sell_stock_sufficient_shares t0 "AAPL" 5 20 small_portfolio 5
                H ltac:(lia)) as T.
  split; [exact (proj1 (proj2 T)) | exact (proj1 (proj2 (proj2 T)))].
Defined.



(** A property of portfolios that the executions and the status writes of
    the limit-order pass keep is kept by the whole pass. *)
Section PassInvariant.

Variable I : Portfolio -> Prop.
Variable ok : Order -> Prop.

Hypothesis I_mark_filled : forall i p, I p -> I (mark_filled i p).
Hypothesis I_execute :
  forall now o p, ok o -> I p -> I (fst (execute_market_order now o p)).

Lemma limit_step_invariant P now i o p :
  ok o -> I p -> I (fst (limit_step P now i o p)).
Proof.
  intros Ho Hp. unfold limit_step.
  destruct (_ && _); [|exact Hp].
  destruct (P !! o_symbol o); [|exact Hp].
  destruct (_ && _); [|destruct (_ && _); [|exact Hp]]; cbn [fst];
    apply I_mark_filled, I_execute; assumption.
Qed.

Lemma check_loop_invariant P clock snapshot :
  Forall ok snapshot ->
  forall i p, I p -> I (fst (check_loop P clock i snapshot p)).
Proof.
  induction 1 as [|o rest Ho _ IH]; intros i p Hp; cbn [check_loop];
    [exact Hp|].
  pose proof (limit_step_invariant P (clock i) i o p Ho Hp) as Hstep.
  destruct (limit_step P (clock i) i o p) as [p' [|k|]]; cbn [fst] in *;
    [apply IH|..]; exact Hstep.
Qed.

End PassInvariant.

Lemma buy_stock_cash_nonneg now S n price p :
  (0 <= cash p)%Q -> (0 <= cash (fst (buy_stock now S n price p)))%Q.
Proof.
  intros Hp. unfold buy_stock.
  destruct (Qgt_bool _ _) eqn:E; [exact Hp|].
  apply Qgt_bool_false in E. cbn. lra.
Qed.

Lemma sell_stock_cash_nonneg now S n price p :
  (0 <= inject_Z n * price)%Q ->
  (0 <= cash p)%Q -> (0 <= cash (fst (sell_stock now S n price p)))%Q.
Proof.
  intros Hv Hp. unfold sell_stock.
  destruct (holdings p !! S); [|exact Hp].
  destruct (_ <? _); [exact Hp|]. cbn. lra.
Qed.

(** X3. The cash never becomes negative.  [buy_stock] keeps a non-negative
    cash for every input, because it refuses what the cash does not cover;
    [sell_stock] keeps it when the value [n*p] of the sale is not
    negative; and the limit-order pass keeps it when that holds for every
    order of the list. *)
Theorem cash_never_negative :
  (forall now S n price p,
      (0 <= cash p)%Q -> (0 <= cash (fst (buy_stock now S n price p)))%Q)
  /\ (forall now S n price p,
      (0 <= inject_Z n * price)%Q -> (0 <= cash p)%Q ->
      (0 <= cash (fst (sell_stock now S n price p)))%Q)
  /\ (forall P clock p,
      Forall (fun o => (0 <= inject_Z (o_shares o) * o_price o)%Q)
        (pending_orders p) ->
      (0 <= cash p)%Q ->
      (0 <= cash (fst (check_limit_orders P clock p)))%Q).
Proof.
  split; [exact buy_stock_cash_nonneg|].
  split; [exact sell_stock_cash_nonneg|].
  intros P clock p Hall Hp. unfold check_limit_orders.
  apply (check_loop_invariant (fun q => (0 <= cash q)%Q)
           (fun o => (0 <= inject_Z (o_shares o) * o_price o)%Q)).
  - intros i q Hq. exact Hq.
  - intros now o q Ho Hq. unfold execute_market_order.
    destruct (String.eqb _ _);
      [apply buy_stock_cash_nonneg | apply sell_stock_cash_nonneg];
      assumption.
  - exact Hall.
  - exact Hp.
Qed.

Lemma cash_never_negative_witness :
  (0 <= cash (fst (check_limit_orders {[ "AAPL" := 40%Q ]} (fun _ => t0)
                     (fst (place_order t0 "buy" "AAPL" 10 50 "limit"
                             (Portfolio_init 1000))))))%Q.
Proof.
  apply (proj2 (proj2 cash_never_negative)).
  - repeat constructor. unfold Qle; simpl; lia.
  - unfold Qle; simpl; lia.
Defined.

Lemma buy_stock_positive_holdings now S n price p :
  0 < n -> positive_holdings p ->
  positive_holdings (fst (buy_stock now S n price p)).
Proof.
  intros Hn Hp. unfold buy_stock.
  destruct (Qgt_bool _ _); [exact Hp|]. cbn [fst].
  intros sym held. cbn [holdings].
  destruct (holdings p !! S) as [h|] eqn:E.
  - destruct (decide (S = sym)) as [->|Hne].
    + rewrite lookup_insert_eq. intros [= <-]. pose proof (Hp _ _ E). lia.
    + rewrite lookup_insert_ne by exact Hne. apply Hp.
  - destruct (decide (S = sym)) as [->|Hne].
    + rewrite lookup_insert_eq. intros [= <-]. exact Hn.
    + rewrite lookup_insert_ne by exact Hne. apply Hp.
Qed.

Lemma sell_stock_positive_holdings now S n price p :
  positive_holdings p ->
  positive_holdings (fst (sell_stock now S n price p)).
Proof.
  intros Hp. unfold sell_stock.
  destruct (holdings p !! S) as [h|] eqn:E; [|exact Hp].
  destruct (Z.ltb_spec h n) as [_|Hle]; [exact Hp|]. cbn [fst].
  intros sym held. cbn [holdings].
  destruct (Z.eqb_spec (h - n) 0) as [Hz|Hnz].
  - destruct (decide (S = sym)) as [->|Hne].
    + rewrite lookup_delete_eq. discriminate.
    + rewrite lookup_delete_ne by exact Hne. apply Hp.
  - destruct (decide (S = sym)) as [->|Hne].
    + rewrite lookup_insert_eq. intros [= <-]. lia.
    + rewrite lookup_insert_ne by exact Hne. apply Hp.
Qed.

(** X4. No holding is ever stored with a zero or negative count, as long
    as nothing is bought in a non-positive quantity: [sell_stock] keeps all
    holdings positive for every input (it deletes the entry that reaches
    zero), [buy_stock] keeps them positive for [n > 0], and the limit-order
    pass keeps them positive when every buy order of the list has a
    positive share count. *)
Theorem holdings_stay_positive :
  (forall now S n price p,
      positive_holdings p ->
      positive_holdings (fst (sell_stock now S n price p)))
  /\ (forall now S n price p,
      0 < n -> positive_holdings p ->
      positive_holdings (fst (buy_stock now S n price p)))
  /\ (forall P clock p,
      Forall (fun o => o_type o = "buy" -> 0 < o_shares o)
        (pending_orders p) ->
      positive_holdings p ->
      positive_holdings (fst (check_limit_orders P clock p))).
Proof.
  split; [exact sell_stock_positive_holdings|].
  split; [exact buy_stock_positive_holdings|].
  intros P clock p Hall Hp. unfold check_limit_orders.
  apply (check_loop_invariant positive_holdings
           (fun o => o_type o = "buy" -> 0 < o_shares o)).
  - intros i q Hq. exact Hq.
  - intros now o q Ho Hq. unfold execute_market_order.
    destruct (String.eqb_spec (o_type o) "buy") as [Hb|_].
    + apply buy_stock_positive_holdings; auto.
    + apply sell_stock_positive_holdings; assumption.
  - exact Hall.
  - exact Hp.
Qed.

Lemma holdings_stay_positive_witness :
  positive_holdings (fst (buy_stock t0 "AAPL" 2 10 small_portfolio)).
Proof.
  apply (proj1 (proj2 holdings_stay_positive)); [lia|].
  intros sym held H.
  destruct (decide (sym = "AAPL")) as [->|Hne].
  - assert (E : holdings small_portfolio !! "AAPL" = Some 5) by reflexivity.
    rewrite E in H. injection H as <-. lia.
  - unfold small_portfolio in H. cbn in H.
    rewrite lookup_singleton_ne in H by congruence. discriminate.
Defined.






Lemma cancel_order_ledger row p :
  cash (cancel_order row p) = cash p
  /\ holdings (cancel_order row p) = holdings p
  /\ transaction_history (cancel_order row p) = transaction_history p.
Proof.
  unfold cancel_order. destruct (_ && _); [|auto].
  destruct (pending_orders p !! Z.to_nat row); [|auto].
  destruct (String.eqb _ _); auto.
Qed.



(** ** More on the limit-order pass *)

Lemma limit_step_pending P now i o p pre rest p' :
  pending_orders p = pre ++ o :: rest -> length pre = i ->
  limit_step P now i o p = (p', NoError) ->
  pending_orders p' = pre ++ pass_update P o :: rest.
Proof.
  intros Hl Hi Hstep. unfold limit_step in Hstep. unfold pass_update.
  destruct (String.eqb (o_kind o) "limit" && String.eqb (o_status o) "pending").
  2:{ injection Hstep as <-. exact Hl. }
  destruct (P !! o_symbol o) as [cp|]; [|discriminate].
  assert (Hfill : forall q, pending_orders q = pre ++ o :: rest ->
            pending_orders (mark_filled i q)
            = pre ++ set_status "filled" o :: rest).
  { intros q Hq. cbn. rewrite Hq, <- Hi.
    replace (length pre) with (length pre + 0)%nat by lia.
    rewrite alter_app_r. reflexivity. }
  unfold triggers.
  destruct (String.eqb (o_type o) "buy" && Qle_bool cp (o_price o)).
  { injection Hstep as <-. cbn [orb].
    apply Hfill. rewrite execute_market_order_pending. exact Hl. }
  destruct (String.eqb (o_type o) "sell" && Qle_bool (o_price o) cp).
  { injection Hstep as <-. cbn [orb].
    apply Hfill. rewrite execute_market_order_pending. exact Hl. }
  injection Hstep as <-. exact Hl.
Qed.

Lemma check_loop_pending P clock snapshot : forall pre i p p',
  pending_orders p = pre ++ snapshot -> length pre = i ->
  check_loop P clock i snapshot p = (p', NoError) ->
  pending_orders p' = pre ++ map (pass_update P) snapshot.
Proof.
  induction snapshot as [|o rest IH]; intros pre i p p' Hl Hi Hrun.
  - cbn in Hrun. injection Hrun as <-. exact Hl.
  - cbn [check_loop] in Hrun.
    destruct (limit_step P (clock i) i o p) as [p1 [|k|]] eqn:Es;
      try discriminate.
    pose proof (limit_step_pending P (clock i) i o p pre rest p1 Hl Hi Es)
      as H1.
    cbn [map].
    replace (pre ++ pass_update P o :: map (pass_update P) rest)
      with ((pre ++ [pass_update P o]) ++ map (pass_update P) rest)
      by (rewrite <- app_assoc; reflexivity).
    apply (IH (pre ++ [pass_update P o]) (S i) p1 p').
    + rewrite H1, <- app_assoc. reflexivity.
    + rewrite length_app. cbn. lia.
    + exact Hrun.
Qed.

(** X6. A pass that ends without error changes the order list in one way
    only: every pending limit order that triggers at the given prices gets
    the status ["filled"].  The list keeps its length and its order, and
    every other order (not a limit order, not pending, or not triggered)
    is exactly as before. *)
Theorem pass_only_marks_triggered (P : gmap string Q)
    (clock : nat -> DateTime) (p p' : Portfolio) :
  check_limit_orders P clock p = (p', NoError) ->
  pending_orders p' = map (pass_update P) (pending_orders p)
  /\ length (pending_orders p') = length (pending_orders p)
  /\ (forall i o, pending_orders p !! i = Some o ->
        o_kind o <> "limit" \/ o_status o <> "pending" ->
        pending_orders p' !! i = Some o).
Proof.
  intros Hrun.
  assert (H : pending_orders p' = map (pass_update P) (pending_orders p)).
  { exact (check_loop_pending P clock (pending_orders p) [] 0%nat p p'
             eq_refl eq_refl Hrun). }
  split; [exact H|]. split; [rewrite H; apply length_map|].
  intros i o Hi Hskip. rewrite H, list_lookup_fmap, Hi. cbn. f_equal.
  unfold pass_update.
  destruct (String.eqb_spec (o_kind o) "limit") as [Hk|_]; [|reflexivity].
  destruct (String.eqb_spec (o_status o) "pending") as [Hs|_]; [|reflexivity].
  destruct Hskip; contradiction.
Qed.

Lemma pass_only_marks_triggered_witness :
  pending_orders
    (fst (check_limit_orders {[ "AAPL" := 140%Q ]} (fun _ => t0)
            (fst (place_order t0 "buy" "AAPL" 10 150 "limit"
                    (Portfolio_init 10000)))))
  = map (pass_update {[ "AAPL" := 140%Q ]})
      (pending_orders (fst (place_order t0 "buy" "AAPL" 10 150 "limit"
                              (Portfolio_init 10000)))).
Proof.
  refine (proj1 (pass_only_marks_triggered {[ "AAPL" := 140%Q ]}
                   (fun _ => t0) _ _ _)).
  vm_compute. reflexivity.
Defined.

(** A pass that did not raise found a price for every pending limit
    order. *)
Lemma check_loop_prices_found P clock snapshot : forall i p p',
  check_loop P clock i snapshot p = (p', NoError) ->
  Forall (fun o => o_kind o = "limit" -> o_status o = "pending" ->
                   is_Some (P !! o_symbol o)) snapshot.
Proof.
  induction snapshot as [|o rest IH]; intros i p p' Hrun; [constructor|].
  cbn [check_loop] in Hrun.
  destruct (limit_step P (clock i) i o p) as [p1 [|k|]] eqn:Es;
    try discriminate.
  constructor; [|exact (IH _ _ _ Hrun)].
  intros Hk Hs. unfold limit_step in Es. rewrite Hk, Hs in Es. cbn in Es.
  destruct (P !! o_symbol o); [eauto | discriminate].
Qed.

(** Orders as a pass leaves them are skipped by a pass at the same
    prices. *)
Lemma check_loop_settled P clock snapshot : forall i q,
  Forall (fun o => o_kind o = "limit" -> o_status o = "pending" ->
                   is_Some (P !! o_symbol o)) snapshot ->
  check_loop P clock i (map (pass_update P) snapshot) q = (q, NoError).
Proof.
  induction snapshot as [|o rest IH]; intros i q Hall; [reflexivity|].
  inversion Hall as [|? ? Ho Hrest]; subst. cbn [map check_loop].
  assert (Hstep : limit_step P (clock i) i (pass_update P o) q = (q, NoError)).
  { unfold pass_update.
    destruct (String.eqb_spec (o_kind o) "limit") as [Hk|Hk];
      [|apply limit_step_skip; left; exact Hk].
    destruct (String.eqb_spec (o_status o) "pending") as [Hs|Hs];
      [|apply limit_step_skip; right; exact Hs].
    cbn [andb]. destruct (Ho Hk Hs) as [cp Hcp]. rewrite Hcp.
    destruct (triggers o cp) eqn:Et.
    - apply limit_step_skip. right. cbn. discriminate.
    - rewrite (limit_step_triggers P (clock i) i o q cp Hk Hs Hcp), Et.
      reflexivity. }
  rewrite Hstep. apply IH. exact Hrest.
Qed.

Lemma pass_only_marks_triggered_aux P clock p p' :
  check_limit_orders P clock p = (p', NoError) ->
  pending_orders p' = map (pass_update P) (pending_orders p)
  /\ Forall (fun o => o_kind o = "limit" -> o_status o = "pending" ->
                      is_Some (P !! o_symbol o)) (pending_orders p).
Proof.
  intros Hrun. split.
  - exact (check_loop_pending P clock (pending_orders p) [] 0%nat p p'
             eq_refl eq_refl Hrun).
  - exact (check_loop_prices_found P clock _ _ _ _ Hrun).
Qed.

(** X7. Filled orders are final, and a pass is idempotent: after a pass
    that ended without error, a second pass at the same prices, at any
    time, changes nothing and raises nothing.  No order is executed
    twice. *)
Theorem pass_twice_is_pass_once (P : gmap string Q)
    (clock clock' : nat -> DateTime) (p p' : Portfolio) :
  check_limit_orders P clock p = (p', NoError) ->
  check_limit_orders P clock' p' = (p', NoError).
Proof.
  intros Hrun. unfold check_limit_orders.
  destruct (pass_only_marks_triggered_aux P clock p p' Hrun) as [-> Hall].
  apply check_loop_settled. exact Hall.
Qed.

Lemma pass_twice_is_pass_once_witness :
  check_limit_orders {[ "AAPL" := 140%Q ]} (fun _ => t2)
    (fst (check_limit_orders {[ "AAPL" := 140%Q ]} (fun _ => t0)
            (fst (place_order t0 "buy" "AAPL" 10 150 "limit"
                    (Portfolio_init 10000)))))
  = (fst (check_limit_orders {[ "AAPL" := 140%Q ]} (fun _ => t0)
            (fst (place_order t0 "buy" "AAPL" 10 150 "limit"
                    (Portfolio_init 10000)))), NoError).
Proof.
  apply (pass_twice_is_pass_once {[ "AAPL" := 140%Q ]} (fun _ => t0)
           (fun _ => t2)
           (fst (place_order t0 "buy" "AAPL" 10 150 "limit"
                   (Portfolio_init 10000)))).
  vm_compute. reflexivity.
Defined.

(** X8. A pending limit order whose symbol has no entry in the price map
    stops the pass with [KeyError] for that symbol.  The orders before it
    have been processed and stay processed; the order itself and all the
    orders after it are as they were before the pass. *)
Theorem pass_stops_at_missing_symbol (P : gmap string Q)
    (clock : nat -> DateTime) (p : Portfolio) (i : nat) (o : Order)
    (p_i : Portfolio) :
  pending_orders p !! i = Some o ->
  o_kind o = "limit" -> o_status o = "pending" ->
  P !! o_symbol o = None ->
  check_loop P clock 0 (take i (pending_orders p)) p = (p_i, NoError) ->
  check_limit_orders P clock p = (p_i, KeyError (o_symbol o))
  /\ (forall j, (i <= j)%nat ->
        pending_orders p_i !! j = pending_orders p !! j).
Proof.
  intros Hi Hk Hs HP Hpre.
  assert (Hlen : length (take i (pending_orders p)) = i).
  { rewrite length_take. apply lookup_lt_Some in Hi. lia. }
  split.
  - unfold check_limit_orders.
    rewrite <- (take_drop_middle (pending_orders p) i o Hi) at 1.
    rewrite (check_loop_middle _ _ _ _ _ _ _ Hpre), Hlen.
    unfold limit_step. rewrite Hk, Hs, HP. reflexivity.
  - intros j Hj.
    pose proof (check_loop_ahead P clock (take i (pending_orders p))
                  0%nat p j ltac:(lia)) as H.
    rewrite Hpre in H. exact H.
Qed.

Lemma pass_stops_at_missing_symbol_witness :
  check_limit_orders ∅ (fun _ => t0)
    (fst (place_order t0 "buy" "AAPL" 10 150 "limit" (Portfolio_init 10000)))
  = (fst (place_order t0 "buy" "AAPL" 10 150 "limit" (Portfolio_init 10000)),
     KeyError "AAPL").
Proof.
  refine (proj1 (pass_stops_at_missing_symbol ∅ (fun _ => t0)
                   (fst (place_order t0 "buy" "AAPL" 10 150 "limit"
                           (Portfolio_init 10000)))
                   0%nat (new_order t0 "buy" "AAPL" 10 150 "limit") _
                   _ _ _ _ _)); reflexivity.
Defined.

(** X9. A triggered limit sell is a sale at the stored price: when the
    pass reaches a pending limit order [o] of type ["sell"] for [n] shares,
    at a price [cp >= o.price], and at least [n] shares are held at that
    moment, then cash goes up by exactly [n * o.price] (not [n * cp]), the
    holding goes down by [n], and the record appended to the log carries
    the price [o.price]. *)
Theorem limit_sell_fills_at_stored_price (P : gmap string Q)
    (clock : nat -> DateTime) (p : Portfolio) (i : nat) (o : Order)
    (cp : Q) (p_i : Portfolio) (held : Z) :
  pending_orders p !! i = Some o ->
  o_kind o = "limit" -> o_status o = "pending" -> o_type o = "sell" ->
  P !! o_symbol o = Some cp -> (o_price o <= cp)%Q ->
  check_loop P clock 0 (take i (pending_orders p)) p = (p_i, NoError) ->
  holdings p_i !! o_symbol o = Some held -> o_shares o <= held ->
  exists p_i',
    check_limit_orders P clock p
      = check_loop P clock (S i) (drop (S i) (pending_orders p)) p_i'
    /\ cash p_i' = (cash p_i + inject_Z (o_shares o) * o_price o)%Q
    /\ holdings p_i' !! o_symbol o
       = (if held =? o_shares o then None else Some (held - o_shares o))
    /\ exists t,
         transaction_history p_i' = transaction_history p_i ++ [t]
         /\ t_type t = "sell" /\ t_price t = o_price o
         /\ t_total t = (inject_Z (o_shares o) * o_price o)%Q.
Proof.
  intros Hi Hk Hs Hty HP Hle Hpre Hheld Hn.
  assert (Hlen : length (take i (pending_orders p)) = i).
  { rewrite length_take. apply lookup_lt_Some in Hi. lia. }
  assert (Ht : triggers o cp = true).
  { apply triggers_iff. right. auto. }
  exists (mark_filled i (fst (execute_market_order (clock i) o p_i))).
  split.
  { unfold check_limit_orders.
    rewrite <- (take_drop_middle (pending_orders p) i o Hi) at 1.
    rewrite (check_loop_middle _ _ _ _ _ _ _ Hpre), Hlen.
    rewrite (limit_step_triggers P (clock i) i o p_i cp Hk Hs HP), Ht.
    reflexivity. }
  unfold execute_market_order. rewrite Hty. cbn [String.eqb Ascii.eqb Bool.eqb].
  change (String.eqb "sell" "buy") with false. cbn iota.
  rewrite (sell_stock_ok _ _ _ _ _ held Hheld Hn). cbn.
  split; [reflexivity|]. split.
  - destruct (Z.eqb_spec held (o_shares o)) as [->|Hne].
    + rewrite Z.sub_diag. cbn. apply lookup_delete_eq.
    + destruct (Z.eqb_spec (held - o_shares o) 0) as [Hc|_]; [lia|].
      apply lookup_insert_eq.
  - eexists. split; [reflexivity|]. repeat split.
Qed.

Lemma limit_sell_fills_at_stored_price_witness :
  exists p_i',
    check_limit_orders {[ "AAPL" := 30%Q ]} (fun _ => t0)
      (fst (place_order t0 "sell" "AAPL" 5 20 "limit" small_portfolio))
    = (p_i', NoError)
    /\ cash p_i' = (100 + inject_Z 5 * 20)%Q.
Proof.
  pose (p := fst (place_order t0 "sell" "AAPL" 5 20 "limit" small_portfolio)).
  pose (o := new_order t0 "sell" "AAPL" 5 20 "limit").
  assert (Hi : pending_orders p !! 0%nat = Some o) by reflexivity.
  assert (HP : ({[ "AAPL" := 30%Q ]} : gmap string Q) !! o_symbol o
               = Some 30%Q) by reflexivity.
  assert (Hle : (o_price o <= 30)%Q) by (unfold Qle; simpl; lia).
  assert (Hpre : check_loop {[ "AAPL" := 30%Q ]} (fun _ => t0) 0
                   (take 0 (pending_orders p)) p = (p, NoError))
    by reflexivity.
  assert (Hh : holdings p !! o_symbol o = Some 5) by reflexivity.
  destruct (limit_sell_fills_at_stored_price {[ "AAPL" := 30%Q ]}
              (fun _ => t0) p 0%nat o 30%Q p 5 Hi eq_refl eq_refl eq_refl
              HP Hle Hpre Hh ltac:(cbn; lia))
    as (p_i' & Hrun & Hc & _).
  exists p_i'. split; [exact Hrun | exact Hc].
Defined.

(** ** Valuation *)









Lemma buys_of_snoc sym log t :
  buys_of sym (log ++ [t])
  = buys_of sym log
    ++ (if String.eqb (t_type t) "buy" && String.eqb (t_symbol t) sym
        then [t] else []).
Proof.
  unfold buys_of. rewrite List.filter_app. cbn [List.filter].
  destruct (_ && _); reflexivity.
Qed.

Lemma sell_stock_buys now S n price p sym :
  buys_of sym (transaction_history (fst (sell_stock now S n price p)))
  = buys_of sym (transaction_history p).
Proof.
  unfold sell_stock. destruct (holdings p !! S); [|reflexivity].
  destruct (_ <? _); [reflexivity|]. cbn [fst transaction_history].
  rewrite buys_of_snoc. cbn. apply app_nil_r.
Qed.

(** X11. The average buy price is a lifetime average of the buys: a sale
    never changes it, for any symbol, and a buy of another symbol does not
    change it either.  A successful buy of [n] shares at [price] that
    brings the shares ever bought to a positive number [s + n] makes it
    [(c + n * price) / (s + n)], where [s] and [c] are the shares and the
    cost of the earlier buys of the symbol. *)
Theorem average_buy_price_is_lifetime (now : DateTime) (S : string) (n : Z)
    (price : Q) (p : Portfolio) :
  (forall sym,
      get_average_buy_price sym (fst (sell_stock now S n price p))
      = get_average_buy_price sym p)
  /\ (forall sym, sym <> S ->
      get_average_buy_price sym (fst (buy_stock now S n price p))
      = get_average_buy_price sym p)
  /\ ((inject_Z n * price <= cash p)%Q -> 0 < bought_shares S p + n ->
      (get_average_buy_price S (fst (buy_stock now S n price p))
       == (bought_cost S p + inject_Z n * price)
          / inject_Z (bought_shares S p + n))%Q).
Proof.
  split; [|split].
  - intros sym. unfold get_average_buy_price.
    rewrite sell_stock_buys. reflexivity.
  - intros sym Hne. unfold get_average_buy_price, buy_stock.
    destruct (Qgt_bool _ _); [reflexivity|]. cbn [fst transaction_history].
    rewrite buys_of_snoc. cbn [t_type t_symbol].
    destruct (String.eqb_spec S sym) as [Heq|_]; [congruence|].
    rewrite andb_false_r, app_nil_r. reflexivity.
  - intros Hcash Hpos. unfold get_average_buy_price.
    rewrite (buy_stock_ok now S n price p Hcash).
    cbn [fst transaction_history]. rewrite buys_of_snoc.
    cbn [t_type t_symbol]. rewrite !String.eqb_refl. cbn [andb].
    rewrite !foldl_app. cbn [foldl t_shares t_total].
    fold (bought_shares S p). fold (bought_cost S p).
    destruct (Z.ltb_spec 0 (bought_shares S p + n)) as [_|Hc]; [|lia].
    reflexivity.
Qed.

Lemma average_buy_price_is_lifetime_witness :
  (get_average_buy_price "AAPL" (fst (buy_stock t0 "AAPL" 2 10 small_portfolio))
   == (bought_cost "AAPL" small_portfolio + inject_Z 2 * 10)
      / inject_Z (bought_shares "AAPL" small_portfolio + 2))%Q.
Proof.
  apply (proj2 (proj2 (average_buy_price_is_lifetime t0 "AAPL" 2 10
                         small_portfolio))).
  - unfold Qle; simpl; lia.
  - cbn. lia.
Defined.

(** ** Price updates *)

Lemma update_indicators_fields s :
  symbol (update_indicators s) = symbol s
  /\ price_history (update_indicators s) = price_history s
  /\ volume_history (update_indicators s) = volume_history s
  /\ ohlc_data (update_indicators s) = ohlc_data s
  /\ last_update (update_indicators s) = last_update s
  /\ volatility (update_indicators s) = volatility s.
Proof.
  unfold update_indicators.
  destruct (map b_close (ohlc_data s)); cbn; repeat split; reflexivity.
Qed.

(** What a call of [update_price] that returned [True] did. *)
Lemma update_price_true now now2 rnd v s s' :
  update_price now now2 rnd v s = Some (s', true) ->
  exists x,
    last (price_history s) = Some x
    /\ price_history s'
       = price_history s
         ++ [Qmax (1 # 100)
               (x * (1 + (volatility s * (rnd - (1 # 2)) + v * (1 # 10000))))]
    /\ ohlc_data s'
       = update_ohlc (toordinal now2)
           (Qmax (1 # 100)
              (x * (1 + (volatility s * (rnd - (1 # 2)) + v * (1 # 10000)))))
           v (ohlc_data s)
    /\ volume_history s' = volume_history s ++ [v]
    /\ last_update s' = now.
Proof.
  unfold update_price. destruct (1 <=? _); [|discriminate].
  destruct (last (price_history s)) as [x|]; [|discriminate].
  intros H. injection H as <-. exists x.
  set (s1 := {| symbol := _ |}).
  destruct (update_indicators_fields s1) as (_ & Hp & Hv & Ho & Hl & _).
  rewrite Hp, Hv, Ho, Hl. repeat split; reflexivity.
Qed.

Lemma update_price_false now now2 rnd v s s' :
  update_price now now2 rnd v s = Some (s', false) -> s' = s.
Proof.
  unfold update_price. destruct (1 <=? _).
  - destruct (last (price_history s)); discriminate.
  - intros H. injection H as <-. reflexivity.
Qed.

(** X12. No price of the history is ever below 0.01: when all prices of
    the history are at least 0.01 before [update_price], they are after
    it, and a call that returned [True] appended exactly one price, which
    is at least 0.01 whatever the volatility, the random number and the
    volume impact were. *)
Theorem price_floor (now now2 : DateTime) (rnd v : Q) (s s' : Stock)
    (b : bool) :
  update_price now now2 rnd v s = Some (s', b) ->
  (Forall (fun x => (1 # 100 <= x)%Q) (price_history s) ->
   Forall (fun x => (1 # 100 <= x)%Q) (price_history s'))
  /\ (b = true ->
      exists x, price_history s' = price_history s ++ [x]
                /\ (1 # 100 <= x)%Q
                /\ get_current_price s' = x).
Proof.
  intros H. destruct b.
  - destruct (update_price_true _ _ _ _ _ _ H) as (x & _ & Hp & _).
    split.
    + intros Hall. rewrite Hp. apply Forall_app. split; [exact Hall|].
      repeat constructor. apply Q.le_max_l.
    + intros _. eexists. split; [exact Hp|]. split; [apply Q.le_max_l|].
      unfold get_current_price. rewrite Hp, last_snoc. reflexivity.
  - apply update_price_false in H. subst s'. split; [auto | discriminate].
Qed.

Lemma price_floor_witness :
  exists x, price_history
              (fst (default (aapl, false)
                      (update_price t2 t2 (3 # 4) 0 aapl)))
            = price_history aapl ++ [x]
            /\ (1 # 100 <= x)%Q.
Proof.
  assert (H : update_price t2 t2 (3 # 4) 0 aapl
              = Some (fst (default (aapl, false)
                             (update_price t2 t2 (3 # 4) 0 aapl)), true))
    by (vm_compute; reflexivity).
  destruct (proj2 (price_floor t2 t2 (3 # 4) 0 aapl _ true H) eq_refl)
    as (x & Hp & Hx & _).
  exists x. split; [exact Hp | exact Hx].
Defined.

(** X13. An ambient tick (volume impact 0) moves the price by at most half
    the volatility, relative to the last price: with a random number in
    [[0,1]], a volatility that is not negative and a last price [x] of at
    least 0.01, the new price lies between [x * (1 - volatility/2)] and
    [x * (1 + volatility/2)].  With volatility 0 the price does not
    move. *)
Theorem ambient_tick_bounded (now now2 : DateTime) (rnd : Q) (s s' : Stock)
    (x : Q) :
  update_price now now2 rnd 0 s = Some (s', true) ->
  last (price_history s) = Some x ->
  (1 # 100 <= x)%Q -> (0 <= volatility s)%Q ->
  (0 <= rnd)%Q -> (rnd <= 1)%Q ->
  (x * (1 - volatility s / 2) <= get_current_price s')%Q
  /\ (get_current_price s' <= x * (1 + volatility s / 2))%Q
  /\ ((volatility s == 0)%Q -> (get_current_price s' == x)%Q).
Proof.
  intros H Hx Hfloor Hvol Hr0 Hr1.
  destruct (update_price_true _ _ _ _ _ _ H) as (x' & Hx' & Hp & _).
  rewrite Hx in Hx'. injection Hx' as <-.
  unfold get_current_price. rewrite Hp, last_snoc.
  set (vol := volatility s) in *.
  set (y := (x * (1 + (vol * (rnd - (1 # 2)) + 0 * (1 # 10000))))%Q).
  assert (Hx0 : (0 <= x)%Q) by lra.
  assert (Ht0 : (0 <= vol * rnd)%Q) by (apply Qmult_le_0_compat; assumption).
  assert (Ht1 : (0 <= vol * (1 - rnd))%Q)
    by (apply Qmult_le_0_compat; [assumption | lra]).
  assert (Hxt0 : (0 <= x * (vol * rnd))%Q)
    by (apply Qmult_le_0_compat; assumption).
  assert (Hxt1 : (0 <= x * (vol * (1 - rnd)))%Q)
    by (apply Qmult_le_0_compat; assumption).
  assert (Hxv : (0 <= x * vol)%Q) by (apply Qmult_le_0_compat; assumption).
  assert (Hlo : (x * (1 - vol / 2) <= y)%Q).
  { subst y. unfold Qdiv. change (/ 2)%Q with (1 # 2)%Q.
    apply Qle_minus_iff. apply Qle_minus_iff in Hxt0.
    eapply Qle_trans; [exact Hxt0|]. apply Qle_lteq. right. ring. }
  assert (Hhi : (y <= x * (1 + vol / 2))%Q).
  { subst y. unfold Qdiv. change (/ 2)%Q with (1 # 2)%Q.
    apply Qle_minus_iff. apply Qle_minus_iff in Hxt1.
    eapply Qle_trans; [exact Hxt1|]. apply Qle_lteq. right. ring. }
  assert (Hfl : (1 # 100 <= x * (1 + vol / 2))%Q).
  { unfold Qdiv. change (/ 2)%Q with (1 # 2)%Q.
    apply Qle_trans with x; [assumption|].
    apply Qle_minus_iff. apply Qle_minus_iff in Hxv.
    apply Qle_trans with ((x * vol + - 0) * (1 # 2))%Q.
    - apply Qmult_le_0_compat; [exact Hxv | unfold Qle; simpl; lia].
    - apply Qle_lteq. right. ring. }
  split; [|split].
  - eapply Qle_trans; [exact Hlo | apply Q.le_max_r].
  - apply Q.max_lub; assumption.
  - intros Hz.
    assert (Hy : (y == x)%Q) by (subst y; rewrite Hz; ring).
    destruct (Q.max_spec (1 # 100) y) as [[_ ->] | [Hle ->]].
    + exact Hy.
    + rewrite Hy in Hle. apply Qle_antisym; assumption.
Qed.

Lemma ambient_tick_bounded_witness :
  (100 * (1 - (2 # 100) / 2)
   <= get_current_price
        (fst (default (aapl, false) (update_price t2 t2 (3 # 4) 0 aapl))))%Q.
Proof.
  assert (H : update_price t2 t2 (3 # 4) 0 aapl
              = Some (fst (default (aapl, false)
                             (update_price t2 t2 (3 # 4) 0 aapl)), true))
    by (vm_compute; reflexivity).
  refine (proj1 (ambient_tick_bounded t2 t2 (3 # 4) aapl _ 100 H eq_refl
                   _ _ _ _)); unfold Qle; simpl; lia.
Defined.

Lemma microseconds_same_time (a b : DateTime) :
  dt_hour a = dt_hour b -> dt_minute a = dt_minute b ->
  dt_second a = dt_second b -> dt_microsecond a = dt_microsecond b ->
  microseconds_of a - microseconds_of b
  = (toordinal a - toordinal b) * (86400 * 1000000).
Proof.
  intros Hh Hm Hs Hu. unfold microseconds_of. rewrite Hh, Hm, Hs, Hu. ring.
Qed.

(** X14. The debounce looks at the seconds field of the time difference
    only, which leaves whole days out: a call of [update_price] at the same
    time of day as the last update, any number of days later (or earlier),
    changes nothing and returns [False], like a call within the same
    second. *)
Theorem update_skipped_after_whole_days (now now2 : DateTime) (rnd v : Q)
    (s : Stock) :
  dt_hour now = dt_hour (last_update s) ->
  dt_minute now = dt_minute (last_update s) ->
  dt_second now = dt_second (last_update s) ->
  dt_microsecond now = dt_microsecond (last_update s) ->
  update_price now now2 rnd v s = Some (s, false).
Proof.
  intros Hh Hm Hs Hu. unfold update_price, timedelta_seconds.
  rewrite (microseconds_same_time _ _ Hh Hm Hs Hu), Z.mod_mul by lia.
  reflexivity.
Qed.

Lemma update_skipped_after_whole_days_witness :
  update_price (mkDateTime 2024 1 16 12 30 0 0) t2 (3 # 4) 0 aapl
  = Some (aapl, false).
Proof.
  apply update_skipped_after_whole_days; reflexivity.
Defined.

(** ** The daily bars *)

Lemma update_ohlc_cases today np v bars :
  bars = [] /\ update_ohlc today np v bars = []
  \/ exists bl,
       last bars = Some bl
       /\ bars !! (length bars - 1)%nat = Some bl
       /\ (today = b_day bl /\
           update_ohlc today np v bars
           = <[ (length bars - 1)%nat :=
                  {| b_day := b_day bl; b_open := b_open bl;
                     b_high := Qmax (b_high bl) np;
                     b_low := Qmin (b_low bl) np;
                     b_close := np;
                     b_volume := (b_volume bl + v)%Q |} ]> bars
           \/ today <> b_day bl /\
              update_ohlc today np v bars
              = bars ++ [ {| b_day := today; b_open := np; b_high := np;
                             b_low := np; b_close := np; b_volume := v |} ]).
Proof.
  unfold update_ohlc. destruct (last bars) as [bl|] eqn:El.
  - right. exists bl. split; [reflexivity|]. split.
    + rewrite last_lookup in El. rewrite <- El. f_equal. lia.
    + destruct (Z.eqb_spec today (b_day bl)); [left | right]; auto.
  - left. apply last_None in El. subst bars. auto.
Qed.

Lemma update_ohlc_bar_ok today np v bars :
  Forall bar_ok bars -> Forall bar_ok (update_ohlc today np v bars).
Proof.
  intros Hall.
  destruct (update_ohlc_cases today np v bars)
    as [[_ ->] | (bl & _ & Hl & [[_ ->] | [_ ->]])].
  - constructor.
  - apply Forall_insert; [exact Hall|].
    pose proof (Forall_lookup_1 _ _ _ _ Hall Hl) as (H1 & H2 & H3 & H4).
    unfold bar_ok. cbn.
    pose proof (Q.le_min_l (b_low bl) np).
    pose proof (Q.le_min_r (b_low bl) np).
    pose proof (Q.le_max_l (b_high bl) np).
    pose proof (Q.le_max_r (b_high bl) np).
    repeat split; lra.
  - apply Forall_app. split; [exact Hall|].
    repeat constructor; cbn; apply Qle_refl.
Qed.

Lemma update_ohlc_days today np v bars :
  (forall bl, last bars = Some bl -> b_day bl <= today) ->
  days_increasing bars -> days_increasing (update_ohlc today np v bars).
Proof.
  intros Hclock Hinc.
  destruct (update_ohlc_cases today np v bars)
    as [[_ ->] | (bl & Hlast & Hl & [[_ ->] | [Hne ->]])].
  - intros i j bi bj Hi. discriminate.
  - assert (Hday : forall k b,
              <[(length bars - 1)%nat := {|
                  b_day := b_day bl; b_open := b_open bl;
                  b_high := Qmax (b_high bl) np; b_low := Qmin (b_low bl) np;
                  b_close := np; b_volume := (b_volume bl + v)%Q |}]> bars
                !! k = Some b ->
              exists b0, bars !! k = Some b0 /\ b_day b0 = b_day b).
    { intros k b Hk.
      destruct (decide (k = (length bars - 1)%nat)) as [->|Hkne].
      - rewrite list_lookup_insert_eq in Hk
          by (apply lookup_lt_Some in Hl; exact Hl).
        injection Hk as <-. exists bl. auto.
      - rewrite list_lookup_insert_ne in Hk by congruence. eauto. }
    intros i j bi bj Hi Hj Hlt.
    destruct (Hday _ _ Hi) as (bi0 & Hi0 & <-).
    destruct (Hday _ _ Hj) as (bj0 & Hj0 & <-).
    exact (Hinc i j bi0 bj0 Hi0 Hj0 Hlt).
  - pose proof (Hclock bl Hlast) as Hle.
    intros i j bi bj Hi Hj Hlt.
    apply lookup_lt_Some in Hl as Hlen.
    destruct (decide (j < length bars)%nat) as [Hj'|Hj'].
    + rewrite lookup_app_l in Hi by lia. rewrite lookup_app_l in Hj by lia.
      exact (Hinc i j bi bj Hi Hj Hlt).
    + assert (Hjl : j = length bars).
      { apply lookup_lt_Some in Hj. rewrite length_app in Hj. cbn in Hj. lia. }
      subst j. rewrite lookup_app_l in Hi by lia.
      rewrite list_lookup_middle in Hj by reflexivity. injection Hj as <-.
      cbn.
      destruct (decide (i = (length bars - 1)%nat)) as [->|Hine].
      * rewrite Hl in Hi. injection Hi as <-. lia.
      * pose proof (Hinc i (length bars - 1)%nat bi bl Hi Hl ltac:(lia)). lia.
Qed.

Lemma update_ohlc_keeps_history today np v bars :
  (length bars <= length (update_ohlc today np v bars) <= S (length bars))%nat
  /\ (forall i, (S i < length bars)%nat ->
        update_ohlc today np v bars !! i = bars !! i).
Proof.
  destruct (update_ohlc_cases today np v bars)
    as [[-> ->] | (bl & _ & Hl & [[_ ->] | [_ ->]])].
  - split; [cbn; lia | intros i Hi; reflexivity].
  - rewrite length_insert. split; [lia|].
    intros i Hi. apply list_lookup_insert_ne. lia.
  - rewrite length_app. cbn. split; [lia|].
    intros i Hi. apply lookup_app_l. lia.
Qed.

(** X15. [update_price] keeps the daily bars well formed.  If in every bar
    the high is at least the open and the close and the low at most the
    open and the close, that is so afterwards.  If the day ordinals
    increase strictly and the clock is not behind the day of the last bar,
    they increase strictly afterwards.  And the history of bars is never
    rewritten: every bar but the last is untouched, and the number of bars
    stays or grows by one. *)
Theorem bars_stay_well_formed (now now2 : DateTime) (rnd v : Q)
    (s s' : Stock) (b : bool) :
  update_price now now2 rnd v s = Some (s', b) ->
  (Forall bar_ok (ohlc_data s) -> Forall bar_ok (ohlc_data s'))
  /\ ((forall bl, last (ohlc_data s) = Some bl ->
         b_day bl <= toordinal now2) ->
      days_increasing (ohlc_data s) -> days_increasing (ohlc_data s'))
  /\ (length (ohlc_data s) <= length (ohlc_data s')
      <= S (length (ohlc_data s)))%nat
  /\ (forall i, (S i < length (ohlc_data s))%nat ->
        ohlc_data s' !! i = ohlc_data s !! i).
Proof.
  intros H. destruct b.
  - destruct (update_price_true _ _ _ _ _ _ H) as (x & _ & _ & -> & _).
    split; [apply update_ohlc_bar_ok|].
    split; [apply update_ohlc_days|].
    apply update_ohlc_keeps_history.
  - apply update_price_false in H. subst s'.
    split; [auto|]. split; [auto|]. split; [lia | auto].
Qed.

Lemma bars_stay_well_formed_witness :
  Forall bar_ok
    (ohlc_data (fst (default (aapl, false)
                       (update_price t2 t2 (3 # 4) 0 aapl)))).
Proof.
  assert (H : update_price t2 t2 (3 # 4) 0 aapl
              = Some (fst (default (aapl, false)
                             (update_price t2 t2 (3 # 4) 0 aapl)), true))
    by (vm_compute; reflexivity).
  apply (proj1 (bars_stay_well_formed t2 t2 (3 # 4) 0 aapl _ true H)).
  repeat constructor; cbn; unfold Qle; simpl; lia.
Defined.

(** ** The synthetic history *)

Lemma Qmult_pos_pos (x y : Q) : (0 < x)%Q -> (0 < y)%Q -> (0 < x * y)%Q.
Proof.
  intros Hx Hy. rewrite <- (Qmult_0_l y).
  apply Qmult_lt_compat_r; assumption.
Qed.

Lemma fake_bars_ok draws n : forall i base,
  (0 < base)%Q -> (forall j, fake_draw_ok (draws j)) ->
  Forall (fun b => bar_ok b /\ (0 < b_low b)%Q) (fake_bars n i base draws).
Proof.
  induction n as [|n IH]; intros i base Hbase Hd; cbn [fake_bars];
    [constructor|].
  destruct (Hd i) as (Ho1 & Ho2 & Hc1 & Hc2 & Hh1 & Hh2 & Hl1 & Hl2).
  set (o := (base * (1 + fd_open (draws i)))%Q).
  set (c := (o * (1 + fd_close (draws i)))%Q).
  assert (Hopos : (0 < o)%Q) by (apply Qmult_pos_pos; [exact Hbase | lra]).
  assert (Hcpos : (0 < c)%Q) by (apply Qmult_pos_pos; [exact Hopos | lra]).
  assert (Hmaxpos : (0 <= Qmax o c)%Q).
  { apply Qle_trans with o; [lra | apply Q.le_max_l]. }
  assert (Hminpos : (0 < Qmin o c)%Q).
  { destruct (Q.min_spec o c) as [[_ ->] | [_ ->]]; assumption. }
  assert (Hup : (0 <= Qmax o c * fd_high (draws i))%Q)
    by (apply Qmult_le_0_compat; assumption).
  assert (Hdown : (0 <= Qmin o c * fd_low (draws i))%Q)
    by (apply Qmult_le_0_compat; [lra | assumption]).
  assert (Hhigh : (Qmax o c <= Qmax o c * (1 + fd_high (draws i)))%Q).
  { apply Qle_minus_iff. apply Qle_minus_iff in Hup.
    eapply Qle_trans; [exact Hup|]. apply Qle_lteq. right. ring. }
  assert (Hlow : (Qmin o c * (1 - fd_low (draws i)) <= Qmin o c)%Q).
  { apply Qle_minus_iff. apply Qle_minus_iff in Hdown.
    eapply Qle_trans; [exact Hdown|]. apply Qle_lteq. right. ring. }
  pose proof (Q.le_max_l o c). pose proof (Q.le_max_r o c).
  pose proof (Q.le_min_l o c). pose proof (Q.le_min_r o c).
  constructor; [|apply IH; assumption].
  split.
  - unfold bar_ok. cbn. repeat split; lra.
  - cbn. apply Qmult_pos_pos; [exact Hminpos | lra].
Qed.

Lemma fake_bars_days draws n : forall i base j b,
  fake_bars n i base draws !! j = Some b ->
  (j < n)%nat
  /\ b_day b = toordinal (fd_now (draws (i + j)%nat))
               - (60 - Z.of_nat (i + j)).
Proof.
  induction n as [|n IH]; intros i base j b Hj; [discriminate|].
  cbn [fake_bars] in Hj. destruct j as [|j].
  - injection Hj as <-. cbn. rewrite Nat.add_0_r. split; [lia | reflexivity].
  - cbn in Hj. destruct (IH _ _ _ _ Hj) as [Hlt ->].
    replace (S i + j)%nat with (i + S j)%nat by lia. split; [lia | reflexivity].
Qed.

Lemma fake_bars_length draws n : forall i base,
  length (fake_bars n i base draws) = n.
Proof.
  induction n as [|n IH]; intros i base; cbn; [reflexivity|].
  rewrite IH. reflexivity.
Qed.

(** X25. The synthetic history is well formed.  With a positive base price
    and random values inside the intervals asked of [random.uniform],
    [generate_fake_historical_data] makes 60 bars, each with a positive
    low, a high at least its open and close and a low at most its open and
    close.  If the date does not go backwards while the loop runs, the day
    ordinals increase strictly and every bar lies before the day of the
    last clock reading, so the history never contains a bar for today. *)
Theorem fake_history_well_formed (base_price : Q) (draws : nat -> FakeDraw)
    (s : Stock) :
  (0 < base_price)%Q -> (forall j, fake_draw_ok (draws j)) ->
  let s' := generate_fake_historical_data base_price draws s in
  length (ohlc_data s') = 60%nat
  /\ Forall (fun b => bar_ok b /\ (0 < b_low b)%Q) (ohlc_data s')
  /\ ((forall i j, (i <= j)%nat ->
         toordinal (fd_now (draws i)) <= toordinal (fd_now (draws j))) ->
      days_increasing (ohlc_data s')
      /\ forall j b, ohlc_data s' !! j = Some b ->
           b_day b < toordinal (fd_now (draws 59%nat))).
Proof.
  intros Hbase Hd s'. subst s'. cbn [generate_fake_historical_data ohlc_data].
  split; [apply fake_bars_length|].
  split; [apply fake_bars_ok; assumption|].
  intros Hmono. split.
  - intros i j bi bj Hi Hj Hlt.
    destruct (fake_bars_days _ _ _ _ _ _ Hi) as [_ ->].
    destruct (fake_bars_days _ _ _ _ _ _ Hj) as [_ ->].
    cbn [Nat.add]. pose proof (Hmono i j ltac:(lia)). lia.
  - intros j b Hj. destruct (fake_bars_days _ _ _ _ _ _ Hj) as [Hlt ->].
    cbn [Nat.add]. pose proof (Hmono j 59%nat ltac:(lia)). lia.
Qed.

Lemma fake_history_well_formed_witness :
  length (ohlc_data (generate_fake_historical_data 100 (fun _ => calm_draw)
                       aapl)) = 60%nat
  /\ days_increasing
       (ohlc_data (generate_fake_historical_data 100 (fun _ => calm_draw)
                     aapl)).
Proof.
  assert (Hb : (0 < 100)%Q) by reflexivity.
  assert (Hd : forall j : nat, fake_draw_ok ((fun _ => calm_draw) j)).
  { intros _. unfold fake_draw_ok, calm_draw. cbn.
    repeat split; unfold Qle; simpl; lia. }
  destruct (fake_history_well_formed 100 (fun _ => calm_draw) aapl Hb Hd)
    as (Hlen & _ & Hdays).
  split; [exact Hlen|].
  apply Hdays. intros i j _. lia.
Defined.

(** ** Moving averages *)

Section MovingAverage.
Local Open Scope Q_scope.

Lemma fsum_between lo hi l :
  Forall (fin_between lo hi) l ->
  exists t, fsum l = Fin t
            /\ inject_Z (Z.of_nat (length l)) * lo <= t
            /\ t <= inject_Z (Z.of_nat (length l)) * hi.
Proof.
  induction 1 as [|x l (c & -> & Hlo & Hhi) _ (t & Ht & Htlo & Hthi)].
  - exists 0. split; [reflexivity|]. cbn [length].
    change (inject_Z (Z.of_nat 0)) with 0. split; lra.
  - exists (c + t). unfold fsum in *. cbn [foldr]. rewrite Ht. cbn [fadd].
    split; [reflexivity|].
    cbn [length]. rewrite Nat2Z.inj_succ. unfold Z.succ.
    rewrite inject_Z_plus. change (inject_Z 1) with 1.
    set (L := inject_Z (Z.of_nat (length l))) in *.
    assert (E1 : (L + 1) * lo == L * lo + lo) by ring.
    assert (E2 : (L + 1) * hi == L * hi + hi) by ring.
    rewrite E1, E2. split; lra.
Qed.

Lemma Series_between lo hi closes :
  Forall (fun c => lo <= c /\ c <= hi) closes ->
  Forall (fin_between lo hi) (Series closes).
Proof.
  intros H. unfold Series. apply Forall_fmap.
  eapply Forall_impl; [exact H|]. intros c [H1 H2]. exists c. auto.
Qed.

Lemma rolling_mean_length w s : length (rolling_mean w s) = length s.
Proof. unfold rolling_mean. rewrite length_map, length_seq. reflexivity. Qed.

(** An entry of a rolling mean over values between [lo] and [hi]: NaN
    while the window is not full, a value between [lo] and [hi] from then
    on. *)
Lemma rolling_mean_between (w : nat) lo hi (s : list fval) (i : nat) r :
  (0 < w)%nat -> Forall (fin_between lo hi) s ->
  rolling_mean w s !! i = Some r ->
  ((S i < w)%nat -> r = NaN)
  /\ ((w <= S i)%nat -> fin_between lo hi r).
Proof.
  intros Hw Hs Hr. apply rolling_mean_lookup in Hr as [Hlt ->].
  unfold window_mean.
  assert (Hlen : length (take (S i) s) = S i) by (rewrite length_take; lia).
  rewrite Hlen. split; intros Hi.
  - destruct (Nat.ltb_spec (S i) w) as [_|Hc]; [reflexivity | lia].
  - destruct (Nat.ltb_spec (S i) w) as [Hc|_]; [lia|].
    destruct (fsum_between lo hi (drop (S i - w) (take (S i) s)))
      as (t & Ht & Htlo & Hthi).
    { apply Forall_drop, Forall_take, Hs. }
    rewrite length_drop, Hlen in Htlo, Hthi.
    replace (S i - (S i - w))%nat with w in Htlo, Hthi by lia.
    rewrite Ht. cbn [fdiv].
    assert (Hpos : 0 < inject_Z (Z.of_nat w)) by (unfold Qlt; cbn; lia).
    destruct (Qeq_bool (inject_Z (Z.of_nat w)) 0) eqn:E.
    { apply Qeq_bool_iff in E. rewrite E in Hpos.
      exfalso. exact (Qlt_irrefl _ Hpos). }
    exists (t / inject_Z (Z.of_nat w)). split; [reflexivity|]. split.
    + apply Qle_shift_div_l; [exact Hpos | lra].
    + apply Qle_shift_div_r; [exact Hpos | lra].
Qed.

(** X16. The moving averages are aligned with the closes and stay inside
    their range.  After [update_indicators] on at least 20 bars whose
    closes all lie between [lo] and [hi], the MA20 series has one entry per
    bar; its first 19 entries are NaN and every later entry is a number
    between [lo] and [hi].  The same holds for MA50 with 50 bars and 49
    leading NaN entries.  With fewer bars than the window the series is
    left as it was. *)
Theorem moving_averages_in_range (s : Stock) (lo hi : Q) :
  Forall (fun b => lo <= b_close b /\ b_close b <= hi) (ohlc_data s) ->
  ((20 <= length (ohlc_data s))%nat ->
   length (ind_MA20 (update_indicators s)) = length (ohlc_data s)
   /\ forall i r, ind_MA20 (update_indicators s) !! i = Some r ->
        ((i < 19)%nat -> r = NaN)
        /\ ((19 <= i)%nat -> exists m, r = Fin m /\ lo <= m /\ m <= hi))
  /\ ((50 <= length (ohlc_data s))%nat ->
      length (ind_MA50 (update_indicators s)) = length (ohlc_data s)
      /\ forall i r, ind_MA50 (update_indicators s) !! i = Some r ->
           ((i < 49)%nat -> r = NaN)
           /\ ((49 <= i)%nat -> exists m, r = Fin m /\ lo <= m /\ m <= hi))
  /\ ((length (ohlc_data s) < 20)%nat ->
      ind_MA20 (update_indicators s) = ind_MA20 s)
  /\ ((length (ohlc_data s) < 50)%nat ->
      ind_MA50 (update_indicators s) = ind_MA50 s).
Proof.
  intros Hall.
  assert (Hb : Forall (fin_between lo hi) (Series (map b_close (ohlc_data s)))).
  { apply Series_between. apply Forall_fmap.
    eapply Forall_impl; [exact Hall|]. intros b Hbar. exact Hbar. }
  assert (Hlen : length (Series (map b_close (ohlc_data s)))
                 = length (ohlc_data s))
    by (unfold Series; rewrite !length_map; reflexivity).
  unfold update_indicators.
  destruct (map b_close (ohlc_data s)) as [|c rest] eqn:Ec.
  { assert (Hz : length (ohlc_data s) = 0%nat)
      by (rewrite <- (length_map b_close), Ec; reflexivity).
    split; [intros; lia|]. split; [intros; lia|]. auto. }
  cbn [ind_MA20 ind_MA50]. rewrite Hlen.
  split; [|split; [|split]].
  - intros H20. destruct (Nat.leb_spec 20 (length (ohlc_data s))); [|lia].
    split; [rewrite rolling_mean_length; exact Hlen|].
    intros i r Hr.
    destruct (rolling_mean_between 20 lo hi _ i r ltac:(lia) Hb Hr)
      as [Hnan Hfin].
    split; [intros; apply Hnan; lia|].
    intros Hi. destruct (Hfin ltac:(lia)) as (m & -> & H1 & H2). eauto.
  - intros H50. destruct (Nat.leb_spec 50 (length (ohlc_data s))); [|lia].
    split; [rewrite rolling_mean_length; exact Hlen|].
    intros i r Hr.
    destruct (rolling_mean_between 50 lo hi _ i r ltac:(lia) Hb Hr)
      as [Hnan Hfin].
    split; [intros; apply Hnan; lia|].
    intros Hi. destruct (Hfin ltac:(lia)) as (m & -> & H1 & H2). eauto.
  - intros Hlt. destruct (Nat.leb_spec 20 (length (ohlc_data s))); [lia|].
    reflexivity.
  - intros Hlt. destruct (Nat.leb_spec 50 (length (ohlc_data s))); [lia|].
    reflexivity.
Qed.

Lemma moving_averages_in_range_witness :
  length (ind_MA20 (update_indicators steady_stock))
  = length (ohlc_data steady_stock).
Proof.
  refine (proj1 (proj1 (moving_averages_in_range steady_stock 10 10 _) _)).
  - repeat (constructor; [split; apply Qle_refl|]). constructor.
  - cbn. lia.
Defined.

End MovingAverage.

(** ** Views of the bars *)

(** X17. [get_ohlc_data(days)] with [days >= 1] returns the last [days]
    bars, or all of them when there are fewer: a suffix of the bar list of
    length [min(days, len)].  With [days = 0] it returns all the bars, not
    none.  [get_volume_data(days)] is the list of the volumes of those
    bars, for every [days]. *)
Theorem ohlc_view_is_suffix (days : Z) (s : Stock) :
  (0 < days ->
   (exists older, ohlc_data s = older ++ get_ohlc_data days s)
   /\ length (get_ohlc_data days s)
      = Nat.min (Z.to_nat days) (length (ohlc_data s)))
  /\ get_ohlc_data 0 s = ohlc_data s
  /\ get_volume_data days s = map b_volume (get_ohlc_data days s).
Proof.
  unfold get_ohlc_data, get_volume_data.
  split; [|split].
  - intros Hd. assert (Hs : slice_last days (ohlc_data s)
      = drop (length (ohlc_data s) - Z.to_nat days) (ohlc_data s)).
    { unfold slice_last. destruct (Z.ltb_spec 0 days); [reflexivity | lia]. }
    destruct (ohlc_data s) as [|b rest] eqn:E.
    + split; [exists []; reflexivity | cbn; lia].
    + rewrite Hs. split.
      * eexists. symmetry. apply take_drop.
      * rewrite length_drop. lia.
  - destruct (ohlc_data s); reflexivity.
  - destruct (ohlc_data s); reflexivity.
Qed.

Lemma ohlc_view_is_suffix_witness :
  length (get_ohlc_data 30 steady_stock) = 20%nat.
Proof.
  exact (proj2 (proj1 (ohlc_view_is_suffix 30 steady_stock) ltac:(lia))).
Defined.

(** ** The window: trades from the form, ticks and fetched prices *)

Lemma stuck_order_never_triggers o cp :
  stuck_order o -> triggers o cp = false.
Proof.
  intros (_ & Hb & Hs). unfold triggers.
  destruct (String.eqb_spec (o_type o) "buy"); [contradiction|].
  destruct (String.eqb_spec (o_type o) "sell"); [contradiction|].
  reflexivity.
Qed.

Lemma stuck_order_pass_update P o : stuck_order o -> pass_update P o = o.
Proof.
  intros Hst. unfold pass_update. destruct (_ && _); [|reflexivity].
  destruct (P !! o_symbol o) as [cp|]; [|reflexivity].
  rewrite (stuck_order_never_triggers o cp Hst). reflexivity.
Qed.

(** X18. A limit order placed through the trade form is never filled.
    The form passes the lower-cased text of the action box, ["kaufen"] or
    ["verkaufen"], as the order type, and the pass compares the type with
    ["buy"] and ["sell"].  So [execute_trade] with a limit order changes
    neither the stocks nor cash, holdings and log; it appends one pending
    order for the selected stock; and that order triggers at no price: the
    loop body of the pass leaves every portfolio as it is when it meets
    it. *)
Theorem form_limit_order_never_fills (d : Draw) (now : DateTime)
    (f : TradeForm) (w : TradingWindow) :
  f_order_type f <> "Market Order" ->
  f_action f = "kaufen" \/ f_action f = "verkaufen" ->
  exists o,
    execute_trade d now f w
      = ({| stocks := stocks w;
            portfolio :=
              {| cash := cash (portfolio w);
                 holdings := holdings (portfolio w);
                 transaction_history := transaction_history (portfolio w);
                 pending_orders := pending_orders (portfolio w) ++ [o] |} |},
         NoError)
    /\ o_symbol o = f_current_stock f /\ o_shares o = f_shares f
    /\ o_price o = f_price f /\ o_kind o = "limit"
    /\ stuck_order o
    /\ (forall cp, triggers o cp = false)
    /\ (forall P t i q, fst (limit_step P t i o q) = q).
Proof.
  intros Hkind Hact.
  exists (new_order now (f_action f) (f_current_stock f) (f_shares f)
            (f_price f) "limit").
  assert (Hst : stuck_order (new_order now (f_action f) (f_current_stock f)
                               (f_shares f) (f_price f) "limit")).
  { split; [reflexivity|]. cbn. destruct Hact as [-> | ->]; split; discriminate. }
  split.
  { unfold execute_trade.
    destruct (String.eqb_spec (f_order_type f) "Market Order") as [Hc|_];
      [contradiction|]. reflexivity. }
  repeat (split; [reflexivity|]). split; [exact Hst|].
  split; [intros cp; apply stuck_order_never_triggers, Hst|].
  intros P t i q. unfold limit_step.
  destruct (_ && _); [|reflexivity].
  destruct (P !! _) as [cp|]; [|reflexivity].
  pose proof (stuck_order_never_triggers _ cp Hst) as Ht.
  unfold triggers in Ht. apply orb_false_elim in Ht as [-> ->]. reflexivity.
Qed.

(** The form of a limit buy of 10 AAPL at 150. *)
Lemma form_limit_order_never_fills_witness :
  exists o,
    execute_trade draw2 t0
      (mkTradeForm "kaufen" "Limit Order" 10 150 (1 # 2) "AAPL")
      two_stock_window
    = ({| stocks := stocks two_stock_window;
          portfolio :=
            {| cash := cash (portfolio two_stock_window);
               holdings := holdings (portfolio two_stock_window);
               transaction_history :=
                 transaction_history (portfolio two_stock_window);
               pending_orders :=
                 pending_orders (portfolio two_stock_window) ++ [o] |} |},
       NoError)
    /\ forall cp, triggers o cp = false.
Proof.
  destruct (form_limit_order_never_fills draw2 t0
              (mkTradeForm "kaufen" "Limit Order" 10 150 (1 # 2) "AAPL")
              two_stock_window ltac:(discriminate) (or_introl eq_refl))
    as (o & H & _ & _ & _ & _ & _ & Ht & _).
  exists o. split; [exact H | exact Ht].
Defined.

(** X19. A stuck order freezes its stock for good.  If the order list
    holds a pending order whose type is neither ["buy"] nor ["sell"] (every
    limit order placed through the form is one), then a tick that ends
    without error leaves every stock with that symbol exactly as it was,
    and the order is still in the list, still pending, after the tick; so
    the same holds for every later tick, until the order is cancelled. *)
Theorem stuck_order_freezes_stock (draws : nat -> Draw)
    (clock : nat -> DateTime) (w w' : TradingWindow) (o : Order) :
  In o (pending_orders (portfolio w)) -> stuck_order o ->
  update_prices draws clock w = (w', NoError) ->
  In o (pending_orders (portfolio w'))
  /\ forall i k s, stocks w !! i = Some (k, s) -> symbol s = o_symbol o ->
       stocks w' !! i = Some (k, s).
Proof.
  intros Hin Hst Hrun. unfold update_prices in Hrun.
  destruct (check_limit_orders _ clock (portfolio w)) as [p' e] eqn:Ec.
  destruct e; try (injection Hrun as _ Hrun; discriminate).
  destruct (advance_stocks draws p' 0 (stocks w)) as [res e] eqn:Ea.
  cbn in Hrun. injection Hrun as <- ->. cbn [portfolio stocks].
  assert (Hin' : In o (pending_orders p')).
  { rewrite (check_loop_pending _ clock (pending_orders (portfolio w)) []
               0%nat (portfolio w) p' eq_refl eq_refl Ec).
    cbn [app]. apply in_map_iff. exists o. split; [|exact Hin].
    apply stuck_order_pass_update, Hst. }
  split; [exact Hin'|].
  intros i k s Hi Hsym.
  apply (proj1 (advance_stocks_lookup draws p' (stocks w) 0%nat i k s res
                  Ea Hi)).
  apply str_in_pending_symbols. exists o.
  destruct Hst as (Hs & _). auto.
Qed.

Lemma stuck_order_freezes_stock_witness :
  stocks (fst (update_prices (fun _ => draw2) (fun _ => t2)
                 (fst (execute_trade draw2 t0
                         (mkTradeForm "kaufen" "Limit Order" 10 150 (1 # 2)
                            "MSFT")
                         two_stock_window))))
    !! 1%nat = Some ("MSFT", msft).
Proof.
  pose (w1 := fst (execute_trade draw2 t0
                     (mkTradeForm "kaufen" "Limit Order" 10 150 (1 # 2)
                        "MSFT")
                     two_stock_window)).
  pose (o := new_order t0 "kaufen" "MSFT" 10 150 "limit").
  assert (Hst : stuck_order o) by (repeat split; discriminate).
  assert (Hrun : update_prices (fun _ => draw2) (fun _ => t2) w1
                 = (fst (update_prices (fun _ => draw2) (fun _ => t2) w1),
                    NoError)) by (vm_compute; reflexivity).
  assert (Hin : In o (pending_orders (portfolio w1)))
    by (cbn; right; left; reflexivity).
  exact (proj2 (stuck_order_freezes_stock (fun _ => draw2) (fun _ => t2)
                  w1 _ o Hin Hst Hrun) 1%nat "MSFT" msft eq_refl eq_refl).
Defined.










(** X22. Only a pending order can be cancelled, and cancelling touches
    nothing else.  With a selected row inside the list whose order is
    pending, [cancel_order] removes exactly that order: the orders before
    and after it keep their order, and the list is one shorter.  With no
    selection ([-1]), a row outside the list, or an order that is not
    pending (a filled one), nothing changes.  Cash, holdings and log are
    never touched. *)
Theorem cancel_removes_pending_only (row : Z) (p : Portfolio) :
  cash (cancel_order row p) = cash p
  /\ holdings (cancel_order row p) = holdings p
  /\ transaction_history (cancel_order row p) = transaction_history p
  /\ (forall o, 0 <= row ->
        pending_orders p !! Z.to_nat row = Some o ->
        o_status o = "pending" ->
        pending_orders (cancel_order row p)
        = take (Z.to_nat row) (pending_orders p)
          ++ drop (S (Z.to_nat row)) (pending_orders p)
        /\ S (length (pending_orders (cancel_order row p)))
           = length (pending_orders p))
  /\ (row < 0 \/ Z.of_nat (length (pending_orders p)) <= row
      \/ (exists o, pending_orders p !! Z.to_nat row = Some o
                    /\ o_status o <> "pending") ->
      cancel_order row p = p).
Proof.
  destruct (cancel_order_ledger row p) as (Hc & Hh & Hl).
  split; [exact Hc|]. split; [exact Hh|]. split; [exact Hl|]. split.
  - intros o Hrow Ho Hs. unfold cancel_order.
    pose proof (lookup_lt_Some _ _ _ Ho) as Hlt.
    destruct (Z.leb_spec 0 row); [|lia].
    destruct (Z.ltb_spec row (Z.of_nat (length (pending_orders p)))); [|lia].
    cbn [andb]. rewrite Ho, Hs, String.eqb_refl. cbn [pending_orders].
    rewrite delete_take_drop. split; [reflexivity|].
    rewrite length_app, length_take, length_drop. lia.
  - intros H. unfold cancel_order.
    destruct (Z.leb_spec 0 row) as [H0|H0]; [|reflexivity].
    destruct (Z.ltb_spec row (Z.of_nat (length (pending_orders p))))
      as [H1|H1]; [|reflexivity].
    cbn [andb]. destruct H as [H | [H | (o & Ho & Hs)]]; [lia | lia |].
    rewrite Ho. destruct (String.eqb_spec (o_status o) "pending");
      [contradiction | reflexivity].
Qed.

Lemma cancel_removes_pending_only_witness :
  pending_orders
    (cancel_order 0 (fst (place_order t0 "buy" "AAPL" 10 50 "limit"
                            (Portfolio_init default_cash))))
  = [].
Proof.
  refine (proj1 (proj1 (proj2 (proj2 (proj2
            (cancel_removes_pending_only 0
               (fst (place_order t0 "buy" "AAPL" 10 50 "limit"
                       (Portfolio_init default_cash)))))))
            (new_order t0 "buy" "AAPL" 10 50 "limit") _ _ _));
    [lia | reflexivity | reflexivity].
Defined.

Lemma stocks_set_other k s' items : forall i k0 s0,
  items !! i = Some (k0, s0) -> k0 <> k ->
  stocks_set k s' items !! i = Some (k0, s0).
Proof.
  induction items as [|[k1 s1] rest IH]; intros i k0 s0 Hi Hne;
    [discriminate|].
  cbn [stocks_set]. destruct (String.eqb_spec k1 k) as [->|Hk].
  - destruct i as [|i]; cbn in Hi |- *; [|exact Hi].
    injection Hi as <- <-. contradiction.
  - destruct i as [|i]; cbn in Hi |- *; [exact Hi|].
    apply IH; assumption.
Qed.

Lemma stocks_set_length k s' items :
  length (stocks_set k s' items) = length items.
Proof.
  induction items as [|[k1 s1] rest IH]; [reflexivity|].
  cbn [stocks_set]. destruct (String.eqb k1 k); cbn; [reflexivity|].
  rewrite IH. reflexivity.
Qed.

(** X23. A market trade from the form never queues an order, trades at the
    price typed into the form, and touches no other stock.  When
    [execute_trade] with a market order ends without error, the order list
    is as before; the log is as before (trade refused) or has one more
    record, for the selected stock, with the share count and the price of
    the form; every stock under another key is unchanged and the number of
    stocks is the same.  When the selected stock is not in the dict the
    call raises [KeyError] and changes nothing. *)
Theorem form_market_trade (d : Draw) (now : DateTime) (f : TradeForm)
    (w w' : TradingWindow) :
  f_order_type f = "Market Order" ->
  (execute_trade d now f w = (w', NoError) ->
   pending_orders (portfolio w') = pending_orders (portfolio w)
   /\ (transaction_history (portfolio w') = transaction_history (portfolio w)
       \/ exists t,
            transaction_history (portfolio w')
            = transaction_history (portfolio w) ++ [t]
            /\ t_symbol t = f_current_stock f /\ t_shares t = f_shares f
            /\ t_price t = f_price f
            /\ t_type t = (if String.eqb (f_action f) "kaufen"
                           then "buy" else "sell"))
   /\ length (stocks w') = length (stocks w)
   /\ (forall i k s, stocks w !! i = Some (k, s) ->
         k <> f_current_stock f -> stocks w' !! i = Some (k, s)))
  /\ (stocks_get (f_current_stock f) (stocks w) = None ->
      execute_trade d now f w = (w, KeyError (f_current_stock f))).
Proof.
  intros Hkind. unfold execute_trade. rewrite Hkind, String.eqb_refl.
  change (String.eqb "market" "market") with true. cbn iota. split.
  - destruct (stocks_get (f_current_stock f) (stocks w)) as [stock|];
      [|discriminate].
    destruct (update_price _ _ _ _ stock) as [[stock' b]|]; [|discriminate].
    intros H. injection H as <-. cbn [portfolio stocks].
    split; [|split; [|split]].
    + destruct (String.eqb _ "kaufen");
        [apply buy_stock_pending | apply sell_stock_pending].
    + destruct (String.eqb _ "kaufen").
      * unfold buy_stock. destruct (Qgt_bool _ _); [left; reflexivity|].
        right. eexists. split; [reflexivity|]. repeat split.
      * unfold sell_stock.
        destruct (holdings (portfolio w) !! f_current_stock f);
          [|left; reflexivity].
        destruct (_ <? _); [left; reflexivity|].
        right. eexists. split; [reflexivity|]. repeat split.
    + apply stocks_set_length.
    + intros i k s Hi Hne. apply stocks_set_other; assumption.
  - intros ->. reflexivity.
Qed.

Lemma form_market_trade_witness :
  pending_orders
    (portfolio (fst (execute_trade draw2 t2
                       (mkTradeForm "kaufen" "Market Order" 10 100 (1 # 2)
                          "MSFT")
                       two_stock_window)))
  = pending_orders (portfolio two_stock_window).
Proof.
  refine (proj1 (proj1 (form_market_trade draw2 t2
                          (mkTradeForm "kaufen" "Market Order" 10 100 (1 # 2)
                             "MSFT")
                          two_stock_window _ eq_refl) _)).
  vm_compute. reflexivity.
Defined.

(** ** Loading from other files *)

(** X24. What [load_from_file] does with files that [save_to_file] did not
    just write.  Without the file the portfolio stays as it is.  A
    document that was saved without the key ["pending_orders"] loads with
    the saved cash, holdings and log and an empty order list.  A document
    without one of the keys ["cash"], ["holdings"] and
    ["transaction_history"] cannot be loaded: the call raises. *)
Theorem load_edge_cases (filename : string) (fs : gmap string json)
    (p p0 : Portfolio) :
  (fs !! filename = None -> load_from_file filename fs p0 = Some p0)
  /\ (Forall (fun t => dt_valid (t_time t) = true) (transaction_history p) ->
      fs !! filename
      = Some (JObject
                [ ("cash", JFloat (cash p));
                  ("holdings",
                   JObject (map (fun kv => (fst kv, JInt (snd kv)))
                              (map_to_list (holdings p))));
                  ("transaction_history",
                   JArray (map transaction_to_json (transaction_history p))) ])
      ->
      load_from_file filename fs p0
      = Some {| cash := cash p; holdings := holdings p;
                transaction_history := transaction_history p;
                pending_orders := [] |})
  /\ (forall data, fs !! filename = Some data ->
        jget "cash" data = None \/ jget "holdings" data = None
        \/ jget "transaction_history" data = None ->
        load_from_file filename fs p0 = None).
Proof.
  split; [|split].
  - intros H. unfold load_from_file. rewrite H. reflexivity.
  - intros Ht H. unfold load_from_file. rewrite H. simpl jget.
    cbn [mbind option_bind as_float as_array fmap option_fmap option_map snd].
    rewrite holdings_roundtrip. cbn [mbind option_bind].
    rewrite (mapM_map_inverse transaction_to_json transaction_of_json).
    2:{ eapply Forall_impl; [exact Ht|]. intros t. apply transaction_roundtrip. }
    reflexivity.
  - intros data H Hmiss. unfold load_from_file. rewrite H.
    destruct Hmiss as [-> | [Hm | Hm]]; [reflexivity | |].
    + rewrite Hm. destruct (jget "cash" data ≫= as_float); reflexivity.
    + rewrite Hm. destruct (jget "cash" data ≫= as_float); [|reflexivity].
      cbn [mbind option_bind].
      destruct (jget "holdings" data ≫= as_holdings); reflexivity.
Qed.

Lemma load_edge_cases_witness :
  load_from_file "portfolio.json" ∅ traded_portfolio = Some traded_portfolio.
Proof.
  apply (proj1 (load_edge_cases "portfolio.json" ∅ traded_portfolio
                  traded_portfolio)).
  reflexivity.
Defined.
